(** * textfit-div: a Polymer custom element that forwards to [textFit]

    Shallow embedding of the two source files of the repository,
    [src/textfit-div.js] and [src/unnamed/part_000], which both define the
    class [TextfitDiv].  The element owns one container, [<div id="fitMe">],
    and calls the external routine [textFit(element, options)] from
    [doFitMe].  The routine itself is not part of the element: it is a
    parameter of the development, free to rewrite the document and free to
    throw.

    JavaScript statements are written in a small monad [Js] that threads the
    world (the element's properties, its shadow DOM, the queue of callbacks
    handed to [this.async], and a chronological trace of the external calls)
    and carries a completion, normal or abrupt, so that [try]/[catch] is a
    real operator of the model.  The listeners the element registers for
    ['iron-resize'] are kept beside the world ([Host]); they matter to
    [attached], whose inherited hook fires that event, and to the delivery
    of the event itself. *)

From Stdlib Require Import String ZArith List Bool Arith Lia.
Import ListNotations.

Local Open Scope string_scope.
Local Open Scope list_scope.

(** ** Values *)

(** The arguments Polymer hands to the observer of the [String] property
    [text]: a string, or [undefined] (the old value on the first run). *)
Inductive JsText : Type :=
| JsUndefined
| JsString (s : string).

(** [a !== b] on such values. *)
Definition strict_neq (a b : JsText) : bool :=
  match a, b with
  | JsUndefined, JsUndefined => false
  | JsString s, JsString t => negb (String.eqb s t)
  | _, _ => true
  end.

(** The string conversion applied by the [innerHTML] setter. *)
Definition ToString (v : JsText) : string :=
  match v with
  | JsUndefined => "undefined"
  | JsString s => s
  end.

(** A thrown value; only its identity matters here. *)
Definition JsError : Type := string.

(** ** The declared properties, [static get properties()] *)

Inductive PropType : Type := TString | TBoolean | TNumber.

Inductive PropValue : Type :=
| VString (s : string)
| VBoolean (b : bool)
| VNumber (n : Z).

Record PropDecl : Type := mkProp {
  pname : string;
  ptype : PropType;
  pvalue : PropValue;
  pobserver : option string
}.

(** The instance side of the declaration: one field per property.  Numbers
    are only stored and forwarded, never computed with, so [Z] stands for
    them. *)
Record Properties : Type := mkProperties {
  text : string;
  isAttached : bool;
  horizontalCenter : bool;
  verticalCenter : bool;
  multiLine : bool;
  detectMultiLine : bool;
  minFontSize : Z;
  maxFontSize : Z;
  reProcess : bool;
  widthOnly : bool;
  manualFire : bool;
  alignVertWithFlexbox : bool
}.

(** The options object literal built in [doFitMe]. *)
Module Opt.
Record t : Type := mk {
  alignHoriz : bool;
  alignVert : bool;
  multiLine : bool;
  detectMultiLine : bool;
  minFontSize : Z;
  maxFontSize : Z;
  reProcess : bool;
  widthOnly : bool;
  alignVertWithFlexbox : bool
}.
End Opt.

(** ** The shadow DOM, as far as the element looks at it *)

Record Element : Type := mkElement {
  innerHTML : string;
  clientHeight : Z;
  clientWidth : Z
}.

(** [fitMe] is the node behind [this.$.fitMe]; [textFitted] is what
    [this.shadowRoot.querySelector('.textFitted')] finds, if anything.  The
    two are kept as separate observations: how the browser lays the
    container out, and how the markup of a child shows in its parent, reach
    the element from outside (see [Document] below and [TextFit]). *)
Record ShadowRoot : Type := mkShadowRoot {
  fitMe : Element;
  textFitted : option Element
}.

(** Element references, as passed to [textFit] and returned by
    [querySelector]. *)
Inductive NodeRef : Type :=
| FitMe
| TextFittedSpan.

(** ** The world *)

(** What crosses the boundary of the element, in the order it happens. *)
Inductive Effect : Type :=
| TextFitCall (el : NodeRef) (o : Opt.t)
| ConsoleDebug (msg : string)
| ConsoleWarn (e : JsError).

(** The functions handed to [this.async]; the sources only ever pass
    [this.doFitMe]. *)
Inductive Callback : Type :=
| DoFitMe.

Record World : Type := mkWorld {
  props : Properties;
  shadow : ShadowRoot;
  microtasks : list Callback;
  trace : list Effect
}.

(** The external fitting routine: given the element reference and the
    options it may rewrite the document, and it either returns or throws.
    It is handed the container, not the host element, and so has no say on
    the host's properties. *)
Definition TextFit : Type :=
  NodeRef -> Opt.t -> ShadowRoot -> ShadowRoot * option JsError.

(** ** Event listeners *)

(** The two methods the sources register for ['iron-resize']:
    [onIronResize] of [src/textfit-div.js] and [_onIronResize] of
    [src/unnamed/part_000]. *)
Inductive Method : Type :=
| M_onIronResize
| M__onIronResize.

(** A function object: the method as it stands on the class, or the result
    of [method.bind(this)].  Each evaluation of [bind] yields a new object;
    the serial number tells them apart. *)
Inductive FunObj : Type :=
| Unbound (m : Method)
| Bound (m : Method) (serial : nat).

Definition method_eqb (a b : Method) : bool :=
  match a, b with
  | M_onIronResize, M_onIronResize => true
  | M__onIronResize, M__onIronResize => true
  | _, _ => false
  end.

(** Identity of function objects, as [addEventListener] compares them. *)
Definition funobj_eqb (f g : FunObj) : bool :=
  match f, g with
  | Unbound a, Unbound b => method_eqb a b
  | Bound a i, Bound b j => method_eqb a b && Nat.eqb i j
  | _, _ => false
  end.

Record Listener : Type := mkListener {
  ltype : string;
  lcallback : FunObj
}.

(** ** The monad of statements *)

Inductive Completion (A : Type) : Type :=
| Normal (a : A)
| Throw (e : JsError).
Arguments Normal {A} a.
Arguments Throw {A} e.

Definition Js (A : Type) : Type := World -> Completion A * World.

Definition ret {A} (a : A) : Js A := fun w => (Normal a, w).

Definition bind {A B} (m : Js A) (k : A -> Js B) : Js B :=
  fun w =>
    match m w with
    | (Normal a, w') => k a w'
    | (Throw e, w') => (Throw e, w')
    end.

(** [try { body } catch (e) { handler e }] *)
Definition try_catch {A} (body : Js A) (handler : JsError -> Js A) : Js A :=
  fun w =>
    match body w with
    | (Normal a, w') => (Normal a, w')
    | (Throw e, w') => handler e w'
    end.

Declare Scope js_scope.
Delimit Scope js_scope with js.
Notation "x <- m ;; k" := (bind m (fun x => k))
  (at level 61, m at next level, right associativity) : js_scope.
Notation "m ;; k" := (bind m (fun _ => k))
  (at level 61, right associativity) : js_scope.
Local Open Scope js_scope.

(** The world a statement leaves behind, and the way it completes. *)
Definition exec {A} (m : Js A) (w : World) : World := snd (m w).
Definition completion {A} (m : Js A) (w : World) : Completion A := fst (m w).

(** ** Primitive statements *)

(** [this.<field>] *)
Definition read {A} (field : Properties -> A) : Js A :=
  fun w => (Normal (field (props w)), w).

(** [this], all fields at once (for the object literal of [doFitMe]). *)
Definition get_this : Js Properties := read (fun p => p).

Definition with_isAttached (b : bool) (p : Properties) : Properties :=
  mkProperties (text p) b (horizontalCenter p) (verticalCenter p)
    (multiLine p) (detectMultiLine p) (minFontSize p) (maxFontSize p)
    (reProcess p) (widthOnly p) (manualFire p) (alignVertWithFlexbox p).

(** [this.isAttached = b] *)
Definition set_isAttached (b : bool) : Js unit :=
  fun w =>
    (Normal tt,
     mkWorld (with_isAttached b (props w)) (shadow w) (microtasks w) (trace w)).

(** [this.$.fitMe] *)
Definition dollar_fitMe : Js Element :=
  fun w => (Normal (fitMe (shadow w)), w).

(** [this.shadowRoot.querySelector('.textFitted')] *)
Definition querySelector_textFitted : Js (option NodeRef) :=
  fun w =>
    (Normal match textFitted (shadow w) with
            | Some _ => Some TextFittedSpan
            | None => None
            end, w).

Definition with_innerHTML (s : string) (el : Element) : Element :=
  mkElement s (clientHeight el) (clientWidth el).

Definition write_innerHTML (r : NodeRef) (s : string) (d : ShadowRoot)
  : ShadowRoot :=
  match r with
  | FitMe => mkShadowRoot (with_innerHTML s (fitMe d)) (textFitted d)
  | TextFittedSpan =>
      mkShadowRoot (fitMe d) (option_map (with_innerHTML s) (textFitted d))
  end.

(** [node.innerHTML = v] *)
Definition set_innerHTML (r : NodeRef) (v : JsText) : Js unit :=
  fun w =>
    (Normal tt,
     mkWorld (props w) (write_innerHTML r (ToString v) (shadow w))
       (microtasks w) (trace w)).

Definition emit (e : Effect) (w : World) : World :=
  mkWorld (props w) (shadow w) (microtasks w) (trace w ++ [e]).

(** [console.debug(msg)] and [console.warn(e)] *)
Definition console_debug (msg : string) : Js unit :=
  fun w => (Normal tt, emit (ConsoleDebug msg) w).
Definition console_warn (e : JsError) : Js unit :=
  fun w => (Normal tt, emit (ConsoleWarn e) w).

(** [this.async(cb)] of Polymer's legacy element, called without a wait
    time: the callback is appended to the microtask queue and the call
    returns at once.  Every call appends; nothing is merged with a callback
    that is already waiting (that would be [this.debounce], which the
    sources never call). *)
Definition async (cb : Callback) : Js unit :=
  fun w =>
    (Normal tt,
     mkWorld (props w) (shadow w) (microtasks w ++ [cb]) (trace w)).

(** Delivery of an event of the given type to a list of listeners that all
    run [handler]: once for each listener of that type, in order. *)
Fixpoint fire (type : string) (handler : Js unit) (ls : list Listener)
  : Js unit :=
  match ls with
  | [] => ret tt
  | l :: rest =>
      (if String.eqb (ltype l) type then handler else ret tt) ;;
      fire type handler rest
  end.

(** [super.attached()].  The class is built with
    [mixinBehaviors([IronResizableBehavior], ...)], so the inherited hook is
    the behavior's: on an element that is marked attached (the framework
    sets [isAttached] before it calls [attached()]; the document has
    finished loading) it notifies a resize, firing ['iron-resize'] at the
    element itself.  The listeners the class has registered for that type
    then run the class's resize handler, inside the call.  [ls] is the
    element's listener list at that moment.  On an element not marked
    attached the hook returns at once. *)
Definition super_attached (handler : Js unit) (ls : list Listener) : Js unit :=
  att <- read isAttached ;;
  if att then fire "iron-resize" handler ls else ret tt.

(** [super.detached()]: the behavior stops its resize notifications; nothing
    the element declares is touched. *)
Definition super_detached : Js unit := ret tt.

(** The call [textFit(el, o)] itself: recorded in the trace, then the
    routine acts on the document and returns or throws. *)
Definition call_textFit (textFit : TextFit) (el : NodeRef) (o : Opt.t)
  : Js unit :=
  fun w =>
    let r := textFit el o (shadow w) in
    let w' := mkWorld (props w) (fst r) (microtasks w)
                (trace w ++ [TextFitCall el o]) in
    match snd r with
    | None => (Normal tt, w')
    | Some e => (Throw e, w')
    end.

(** ** src/textfit-div.js *)

Module TextfitDiv.

Definition properties : list PropDecl :=
  [ mkProp "text" TString (VString "") (Some "_textChanged");
    mkProp "isAttached" TBoolean (VBoolean false) None;
    mkProp "horizontalCenter" TBoolean (VBoolean false) None;
    mkProp "verticalCenter" TBoolean (VBoolean false) None;
    mkProp "multiLine" TBoolean (VBoolean false) None;
    mkProp "detectMultiLine" TBoolean (VBoolean true) None;
    mkProp "minFontSize" TNumber (VNumber 6) None;
    mkProp "maxFontSize" TNumber (VNumber 200) None;
    mkProp "reProcess" TBoolean (VBoolean true) None;
    mkProp "widthOnly" TBoolean (VBoolean false) None;
    mkProp "manualFire" TBoolean (VBoolean false) None;
    mkProp "alignVertWithFlexbox" TBoolean (VBoolean false) None ].

Section WithTextFit.
Variable textFit : TextFit.

Definition onIronResize : Js unit :=
  manual <- read manualFire ;;
  if manual then ret tt
  else async DoFitMe.

Definition attached (ls : list Listener) : Js unit :=
  super_attached onIronResize ls ;;
  set_isAttached true ;;
  manual <- read manualFire ;;
  if manual then ret tt
  else async DoFitMe.

Definition detached : Js unit :=
  super_detached ;;
  set_isAttached false.

Definition _textChanged (newText oldText : JsText) : Js unit :=
  manual <- read manualFire ;;
  if strict_neq newText oldText && negb manual then
    span <- querySelector_textFitted ;;
    match span with
    | Some node => set_innerHTML node newText
    | None => ret tt
    end ;;
    async DoFitMe
  else ret tt.

Definition doFitMe : Js unit :=
  att <- read isAttached ;;
  if negb att then ret tt
  else
    el <- dollar_fitMe ;;
    if (String.length (innerHTML el) <? 1)%nat then ret tt
    else
      el <- dollar_fitMe ;;
      if (clientHeight el <=? 0)%Z || (clientWidth el <=? 0)%Z then
        console_debug
          "textfit-div has no size yet, therefore the text can not be fitted."
      else
        try_catch
          (this <- get_this ;;
           call_textFit textFit FitMe
             (Opt.mk (horizontalCenter this) (verticalCenter this)
                (multiLine this) (detectMultiLine this)
                (minFontSize this) (maxFontSize this)
                (reProcess this) (widthOnly this)
                (alignVertWithFlexbox this)))
          (fun e => console_warn e).

End WithTextFit.

End TextfitDiv.

(** ** src/unnamed/part_000 *)

Module Part000.

Definition properties : list PropDecl :=
  [ mkProp "text" TString (VString "") (Some "_textChanged");
    mkProp "isAttached" TBoolean (VBoolean false) None;
    mkProp "horizontalCenter" TBoolean (VBoolean false) None;
    mkProp "verticalCenter" TBoolean (VBoolean false) None;
    mkProp "multiLine" TBoolean (VBoolean false) None;
    mkProp "detectMultiLine" TBoolean (VBoolean true) None;
    mkProp "minFontSize" TNumber (VNumber 6) None;
    mkProp "maxFontSize" TNumber (VNumber 200) None;
    mkProp "reProcess" TBoolean (VBoolean true) None;
    mkProp "widthOnly" TBoolean (VBoolean false) None;
    mkProp "manualFire" TBoolean (VBoolean false) None;
    mkProp "alignVertWithFlexbox" TBoolean (VBoolean false) None ].

Section WithTextFit.
Variable textFit : TextFit.

Definition _onIronResize : Js unit :=
  manual <- read manualFire ;;
  if manual then ret tt
  else async DoFitMe.

Definition attached (ls : list Listener) : Js unit :=
  super_attached _onIronResize ls ;;
  set_isAttached true ;;
  manual <- read manualFire ;;
  if manual then ret tt
  else async DoFitMe.

Definition detached : Js unit :=
  super_detached ;;
  set_isAttached false.

Definition _textChanged (newText oldText : JsText) : Js unit :=
  manual <- read manualFire ;;
  if strict_neq newText oldText && negb manual then
    span <- querySelector_textFitted ;;
    match span with
    | Some node => set_innerHTML node newText
    | None => ret tt
    end ;;
    async DoFitMe
  else ret tt.

Definition doFitMe : Js unit :=
  att <- read isAttached ;;
  if negb att then ret tt
  else
    el <- dollar_fitMe ;;
    if (String.length (innerHTML el) <? 1)%nat then ret tt
    else
      el <- dollar_fitMe ;;
      if (clientHeight el <=? 0)%Z || (clientWidth el <=? 0)%Z then
        console_debug
          "textfit-div has no size yet, therefore the text can not be fitted."
      else
        try_catch
          (this <- get_this ;;
           call_textFit textFit FitMe
             (Opt.mk (horizontalCenter this) (verticalCenter this)
                (multiLine this) (detectMultiLine this)
                (minFontSize this) (maxFontSize this)
                (reProcess this) (widthOnly this)
                (alignVertWithFlexbox this)))
          (fun e => console_warn e).

End WithTextFit.

End Part000.

(** ** Either source file *)

Inductive Source : Type :=
| textfit_div_js
| part_000.

Definition properties (src : Source) : list PropDecl :=
  match src with
  | textfit_div_js => TextfitDiv.properties
  | part_000 => Part000.properties
  end.

Definition attached (src : Source) (ls : list Listener) : Js unit :=
  match src with
  | textfit_div_js => TextfitDiv.attached ls
  | part_000 => Part000.attached ls
  end.

Definition detached (src : Source) : Js unit :=
  match src with
  | textfit_div_js => TextfitDiv.detached
  | part_000 => Part000.detached
  end.

Definition textChanged (src : Source) (newText oldText : JsText) : Js unit :=
  match src with
  | textfit_div_js => TextfitDiv._textChanged newText oldText
  | part_000 => Part000._textChanged newText oldText
  end.

Definition ironResize (src : Source) : Js unit :=
  match src with
  | textfit_div_js => TextfitDiv.onIronResize
  | part_000 => Part000._onIronResize
  end.

Definition doFitMe (src : Source) (textFit : TextFit) : Js unit :=
  match src with
  | textfit_div_js => TextfitDiv.doFitMe textFit
  | part_000 => Part000.doFitMe textFit
  end.

(** ** The element in its page *)

(** Property values a fresh instance starts with, read off the declaration. *)
Definition default_of (decls : list PropDecl) (name : string)
  : option PropValue :=
  option_map pvalue (find (fun d => String.eqb (pname d) name) decls).

Definition bool_default (decls : list PropDecl) (name : string) : bool :=
  match default_of decls name with Some (VBoolean b) => b | _ => false end.
Definition number_default (decls : list PropDecl) (name : string) : Z :=
  match default_of decls name with Some (VNumber n) => n | _ => 0%Z end.
Definition string_default (decls : list PropDecl) (name : string) : string :=
  match default_of decls name with Some (VString s) => s | _ => "" end.

Definition initial_properties (decls : list PropDecl) : Properties :=
  mkProperties
    (string_default decls "text")
    (bool_default decls "isAttached")
    (bool_default decls "horizontalCenter")
    (bool_default decls "verticalCenter")
    (bool_default decls "multiLine")
    (bool_default decls "detectMultiLine")
    (number_default decls "minFontSize")
    (number_default decls "maxFontSize")
    (bool_default decls "reProcess")
    (bool_default decls "widthOnly")
    (bool_default decls "manualFire")
    (bool_default decls "alignVertWithFlexbox").

(** A fresh instance over a given document: nothing scheduled, nothing
    called yet. *)
Definition initial (src : Source) (d : ShadowRoot) : World :=
  mkWorld (initial_properties (properties src)) d [] [].

(** Assignments a page makes to the configuration properties.  [text] has
    an observer and is set through [set_text]; [isAttached] is written by
    [attached] and [detached] only. *)
Inductive Assign : Type :=
| SetHorizontalCenter (b : bool)
| SetVerticalCenter (b : bool)
| SetMultiLine (b : bool)
| SetDetectMultiLine (b : bool)
| SetMinFontSize (n : Z)
| SetMaxFontSize (n : Z)
| SetReProcess (b : bool)
| SetWidthOnly (b : bool)
| SetManualFire (b : bool)
| SetAlignVertWithFlexbox (b : bool).

Definition assign (a : Assign) (p : Properties) : Properties :=
  match p with
  | mkProperties t ia hc vc ml dml mn mx rp wo mf fx =>
      match a with
      | SetHorizontalCenter b => mkProperties t ia b vc ml dml mn mx rp wo mf fx
      | SetVerticalCenter b => mkProperties t ia hc b ml dml mn mx rp wo mf fx
      | SetMultiLine b => mkProperties t ia hc vc b dml mn mx rp wo mf fx
      | SetDetectMultiLine b => mkProperties t ia hc vc ml b mn mx rp wo mf fx
      | SetMinFontSize n => mkProperties t ia hc vc ml dml n mx rp wo mf fx
      | SetMaxFontSize n => mkProperties t ia hc vc ml dml mn n rp wo mf fx
      | SetReProcess b => mkProperties t ia hc vc ml dml mn mx b wo mf fx
      | SetWidthOnly b => mkProperties t ia hc vc ml dml mn mx rp b mf fx
      | SetManualFire b => mkProperties t ia hc vc ml dml mn mx rp wo b fx
      | SetAlignVertWithFlexbox b =>
          mkProperties t ia hc vc ml dml mn mx rp wo mf b
      end
  end.

Definition with_text (s : string) (p : Properties) : Properties :=
  mkProperties s (isAttached p) (horizontalCenter p) (verticalCenter p)
    (multiLine p) (detectMultiLine p) (minFontSize p) (maxFontSize p)
    (reProcess p) (widthOnly p) (manualFire p) (alignVertWithFlexbox p).

(** [element.text = v]: the property declares [observer: '_textChanged'], so
    a value that differs from the stored one is stored and the observer runs
    with the new and the old value. *)
Definition set_text (src : Source) (v : string) : Js unit :=
  old <- read text ;;
  if String.eqb v old then ret tt
  else
    (fun w => (Normal tt,
               mkWorld (with_text v (props w)) (shadow w) (microtasks w)
                 (trace w))) ;;
    textChanged src (JsString v) (JsString old).

(** The body a scheduled callback runs. *)
Definition callback_body (src : Source) (textFit : TextFit) (cb : Callback)
  : Js unit :=
  match cb with
  | DoFitMe => doFitMe src textFit
  end.

Fixpoint run_callbacks (src : Source) (textFit : TextFit)
    (cbs : list Callback) (w : World) : World :=
  match cbs with
  | [] => w
  | cb :: rest =>
      run_callbacks src textFit rest (exec (callback_body src textFit cb) w)
  end.

(** The microtask checkpoint: the callbacks waiting at that moment are taken
    off the queue and run in the order they were scheduled. *)
Definition flush (src : Source) (textFit : TextFit) (w : World) : World :=
  run_callbacks src textFit (microtasks w)
    (mkWorld (props w) (shadow w) [] (trace w)).

(** What can happen to an instance.  [Attached ls] is a call of
    [attached()] made while [ls] are the listeners registered on the
    element. *)
Inductive Event : Type :=
| Attached (ls : list Listener)
| Detached
| TextChanged (newText oldText : JsText)
| IronResize
| ManualDoFitMe
| Microtasks
| SetText (v : string)
| Assignment (a : Assign)
| Document (d : ShadowRoot).

Definition step (src : Source) (textFit : TextFit) (ev : Event) (w : World)
  : World :=
  match ev with
  | Attached ls => exec (attached src ls) w
  | Detached => exec (detached src) w
  | TextChanged newText oldText => exec (textChanged src newText oldText) w
  | IronResize => exec (ironResize src) w
  | ManualDoFitMe => exec (doFitMe src textFit) w
  | Microtasks => flush src textFit w
  | SetText v => exec (set_text src v) w
  | Assignment a =>
      mkWorld (assign a (props w)) (shadow w) (microtasks w) (trace w)
  | Document d => mkWorld (props w) d (microtasks w) (trace w)
  end.

Definition run (src : Source) (textFit : TextFit) (evs : list Event)
    (w : World) : World :=
  fold_left (fun w ev => step src textFit ev w) evs w.

(** ** Reading the trace *)

Definition is_textFit_call (e : Effect) : bool :=
  match e with
  | TextFitCall _ _ => true
  | _ => false
  end.

(** Number of calls of [textFit] recorded in a trace. *)
Definition textFit_calls (l : list Effect) : nat :=
  length (filter is_textFit_call l).

(** ** Vocabulary of the statements *)

(** The options [doFitMe] builds from the element's properties. *)
Definition fitting_options (p : Properties) : Opt.t :=
  Opt.mk (horizontalCenter p) (verticalCenter p) (multiLine p)
    (detectMultiLine p) (minFontSize p) (maxFontSize p) (reProcess p)
    (widthOnly p) (alignVertWithFlexbox p).

(** The three early returns of [doFitMe], as one test on the world. *)
Definition skipped (w : World) : bool :=
  negb (isAttached (props w))
  || (String.length (innerHTML (fitMe (shadow w))) <? 1)%nat
  || (clientHeight (fitMe (shadow w)) <=? 0)%Z
  || (clientWidth (fitMe (shadow w)) <=? 0)%Z.

(** What a statement added to the trace. *)
Definition emitted {A} (m : Js A) (w : World) : list Effect :=
  skipn (length (trace w)) (trace (exec m w)).

(** The events that are not a call of [doFitMe] by the page, and do not
    touch [manualFire]. *)
Definition automatic (ev : Event) : bool :=
  match ev with
  | ManualDoFitMe => false
  | Assignment (SetManualFire _) => false
  | _ => true
  end.

(** The attachment status a history of events should leave, starting
    from [b]. *)
Definition lifecycle (b : bool) (ev : Event) : bool :=
  match ev with
  | Attached _ => true
  | Detached => false
  | _ => b
  end.

Definition is_Attached (ev : Event) : bool :=
  match ev with
  | Attached _ => true
  | _ => false
  end.

(** The resize and text-change notifications. *)
Definition is_trigger (ev : Event) : bool :=
  match ev with
  | IronResize | TextChanged _ _ => true
  | _ => false
  end.

(** What one such notification puts on the queue. *)
Definition scheduled_by (manual : bool) (ev : Event) : list Callback :=
  match ev with
  | IronResize => if manual then [] else [DoFitMe]
  | TextChanged newText oldText =>
      if strict_neq newText oldText && negb manual then [DoFitMe] else []
  | _ => []
  end.


(** A fitting routine for examples: it wraps the container's markup in a
    [textFitted] span and returns. *)
Definition textFit_wrapping : TextFit :=
  fun _ _ d => (mkShadowRoot (fitMe d) (Some (fitMe d)), None).

(** One that throws. *)
Definition textFit_throwing : TextFit :=
  fun _ _ d => (d, Some "TypeError: el is undefined").

(** A laid-out container showing "Hey!". *)
Definition hey_document : ShadowRoot :=
  mkShadowRoot (mkElement "Hey!" 40 120) None.

(** The instance of [src/textfit-div.js] once attached and fitted; at its
    first [attached()] no listener is registered yet. *)
Definition hey_fitted : World :=
  run textfit_div_js textFit_wrapping [Attached []; Microtasks]
    (initial textfit_div_js hey_document).

(** The same instance attached, with a fitting routine that will throw. *)
Definition hey_attached : World :=
  run textfit_div_js textFit_throwing [Attached []]
    (initial textfit_div_js hey_document).

(** The options that instance passes as long as it keeps its defaults. *)
Definition hey_options : Opt.t :=
  Opt.mk false false false true 6 200 true false false.

(** The same instance in manual mode. *)
Definition hey_manual : World :=
  run textfit_div_js textFit_wrapping [Assignment (SetManualFire true)]
    (initial textfit_div_js hey_document).

(** ** Listener registration: [connectedCallback] and [ready] *)

(** The element as an event target: its world, its listener list, and the
    number of bound functions created so far. *)
Record Host : Type := mkHost {
  world : World;
  listeners : list Listener;
  allocated : nat
}.

(** A statement of the element run on a host. *)
Definition lift (m : Js unit) (h : Host) : Host :=
  mkHost (exec m (world h)) (listeners h) (allocated h).

(** [this.<method>.bind(this)] *)
Definition bind_this (m : Method) (h : Host) : FunObj * Host :=
  (Bound m (allocated h),
   mkHost (world h) (listeners h) (S (allocated h))).

Definition same_listener (type : string) (f : FunObj) (l : Listener) : bool :=
  String.eqb (ltype l) type && funobj_eqb (lcallback l) f.

(** [this.addEventListener(type, f)]: appended, unless the very same function
    is already listening for that type. *)
Definition addEventListener (type : string) (f : FunObj) (h : Host) : Host :=
  if existsb (same_listener type f) (listeners h) then h
  else mkHost (world h) (listeners h ++ [mkListener type f]) (allocated h).

(** What calling a registered function runs, with [this] the element either
    way: bound to it, or the target of the event. *)
Definition method_body (m : Method) : Js unit :=
  match m with
  | M_onIronResize => TextfitDiv.onIronResize
  | M__onIronResize => Part000._onIronResize
  end.

Definition call (f : FunObj) : Js unit :=
  match f with
  | Unbound m => method_body m
  | Bound m _ => method_body m
  end.

(** The element receives an event of the given type: its listeners for that
    type run in the order they were added. *)
Definition dispatchEvent (type : string) (h : Host) : Host :=
  fold_left
    (fun h l =>
       if String.eqb (ltype l) type then lift (call (lcallback l)) h else h)
    (listeners h) h.

Section Registration.

(** The inherited callbacks, [super.connectedCallback()] and
    [super.ready()]: whatever the framework does to the element's world. *)
Variable super_connectedCallback : Js unit.
Variable super_ready : Js unit.

(** [connectedCallback] of [src/textfit-div.js]. *)
Definition connectedCallback (h : Host) : Host :=
  let h1 := lift super_connectedCallback h in
  let (f, h2) := bind_this M_onIronResize h1 in
  addEventListener "iron-resize" f h2.

(** [ready] of [src/unnamed/part_000]. *)
Definition ready (h : Host) : Host :=
  let h1 := lift super_ready h in
  addEventListener "iron-resize" (Unbound M__onIronResize) h1.

End Registration.

(** Number of listeners for ['iron-resize']. *)
Definition resize_listeners (h : Host) : nat :=
  length (filter (fun l => String.eqb (ltype l) "iron-resize") (listeners h)).

(** The same count on a bare listener list. *)
Definition listening (ls : list Listener) : nat :=
  length (filter (fun l => String.eqb (ltype l) "iron-resize") ls).

(** Every bound function on the list was created before now. *)
Definition fresh (h : Host) : bool :=
  forallb
    (fun l =>
       match lcallback l with
       | Bound _ i => (i <? allocated h)%nat
       | Unbound _ => true
       end)
    (listeners h).

(** A new element over a world: no listener yet. *)
Definition new_host (w : World) : Host := mkHost w [] 0.

(** ** The element connected to a document *)

(** What the framework runs around the callbacks of the sources.  When the
    element becomes ready its properties are flushed, and the observer of
    [text] runs for the first time, with no old value. *)
Definition framework_ready (src : Source) : Js unit :=
  t <- read text ;;
  textChanged src (JsString t) JsUndefined.

(** The legacy element's [connectedCallback], once the element is ready: it
    marks the element attached and calls [attached()]; [ls] are the
    listeners registered at that moment. *)
Definition legacy_connected (src : Source) (ls : list Listener) : Js unit :=
  set_isAttached true ;;
  attached src ls.

(** Its [disconnectedCallback]: the mark is cleared and [detached()] runs. *)
Definition legacy_disconnected (src : Source) : Js unit :=
  set_isAttached false ;;
  detached src.

(** The first connection of an element.  [src/textfit-div.js] overrides
    [connectedCallback]: the inherited one runs (ready, then attached), and
    the listener is added afterwards.  [src/unnamed/part_000] overrides
    [ready]: the listener is added when the element becomes ready, before
    [attached()] runs. *)
Definition first_connect (src : Source) (h : Host) : Host :=
  match src with
  | textfit_div_js =>
      connectedCallback
        (framework_ready textfit_div_js ;;
         legacy_connected textfit_div_js (listeners h)) h
  | part_000 =>
      let h1 := ready (framework_ready part_000) h in
      lift (legacy_connected part_000 (listeners h1)) h1
  end.

(** A later connection: the element is ready already. *)
Definition reconnect (src : Source) (h : Host) : Host :=
  match src with
  | textfit_div_js =>
      connectedCallback (legacy_connected textfit_div_js (listeners h)) h
  | part_000 => lift (legacy_connected part_000 (listeners h)) h
  end.

(** Removal from the document. *)
Definition disconnect (src : Source) (h : Host) : Host :=
  lift (legacy_disconnected src) h.





(** Behavioural equivalence of the two files at start-up: connected for the
    first time from the same state, the two elements are in the same
    world. *)
Definition same_start : Prop :=
  forall h : Host,
    world (first_connect part_000 h) = world (first_connect textfit_div_js h).

(** ** More vocabulary *)

(** The document side of the guard of [doFitMe]: markup present and a
    positive size. *)
Definition fittable (d : ShadowRoot) : bool :=
  negb (String.length (innerHTML (fitMe d)) <? 1)%nat
  && negb (clientHeight (fitMe d) <=? 0)%Z
  && negb (clientWidth (fitMe d) <=? 0)%Z.

(** The events that can lead to a call of [textFit], each with the number
    of runs of [doFitMe] it can cause: a call by the page, a run of the
    resize handler or of the text observer count one; [attached()] counts
    one for itself and one for each listener its inherited hook re-enters. *)
Definition may_cause_fit (ev : Event) : nat :=
  match ev with
  | Attached ls => 1 + listening ls
  | IronResize | TextChanged _ _ | SetText _ | ManualDoFitMe => 1
  | _ => 0
  end.

(** Every [console.warn] in the trace comes right after a call of
    [textFit]; the flag says whether the entry before the list is one. *)
Fixpoint warned_after_call (after_call : bool) (l : list Effect) : bool :=
  match l with
  | [] => true
  | TextFitCall _ _ :: rest => warned_after_call true rest
  | ConsoleDebug _ :: rest => warned_after_call false rest
  | ConsoleWarn _ :: rest => after_call && warned_after_call false rest
  end.

Definition is_lifecycle (ev : Event) : bool :=
  match ev with
  | Attached _ | Detached => true
  | _ => false
  end.

(** The "Hey!" element as an event target, not connected yet. *)
Definition hey_host : Host :=
  new_host (initial textfit_div_js hey_document).

(** * Properties *)

(** ** How each operation runs *)

Lemma world_eta (w : World) :
  mkWorld (props w) (shadow w) (microtasks w) (trace w) = w.
Proof. now destruct w. Qed.

Lemma detached_run (src : Source) (w : World) :
  detached src w =
  (Normal tt,
   mkWorld (with_isAttached false (props w)) (shadow w) (microtasks w)
     (trace w)).
Proof. now destruct src. Qed.

Lemma ironResize_run (src : Source) (w : World) :
  ironResize src w =
  (Normal tt,
   mkWorld (props w) (shadow w)
     (microtasks w ++ if manualFire (props w) then [] else [DoFitMe])
     (trace w)).
Proof.
  destruct src; cbv [ironResize TextfitDiv.onIronResize Part000._onIronResize
    bind ret read async];
  destruct (manualFire (props w)); cbn; now rewrite ?app_nil_r, ?world_eta.
Qed.

Lemma fire_run (src : Source) (ls : list Listener) :
  forall w,
    fire "iron-resize" (ironResize src) ls w =
    (Normal tt,
     mkWorld (props w) (shadow w)
       (microtasks w ++
        if manualFire (props w) then [] else repeat DoFitMe (listening ls))
       (trace w)).
Proof.
  induction ls as [|l ls IH]; intros w.
  - cbn. destruct (manualFire (props w)); now rewrite app_nil_r, world_eta.
  - cbn [fire]. unfold bind, listening. cbn [filter].
    destruct (String.eqb (ltype l) "iron-resize").
    + rewrite ironResize_run, IH. cbn [props shadow microtasks trace].
      unfold listening. cbn [length repeat].
      destruct (manualFire (props w)); [now rewrite !app_nil_r|].
      now rewrite <- app_assoc.
    + unfold ret. now rewrite IH.
Qed.

Lemma attached_unfold (src : Source) (ls : list Listener) :
  attached src ls =
  bind (super_attached (ironResize src) ls)
    (fun _ => bind (set_isAttached true)
       (fun _ => bind (read manualFire)
          (fun manual => if manual then ret tt else async DoFitMe))).
Proof. now destruct src. Qed.

Lemma attached_run (src : Source) (ls : list Listener) (w : World) :
  attached src ls w =
  (Normal tt,
   mkWorld (with_isAttached true (props w)) (shadow w)
     (microtasks w ++
      if manualFire (props w) then []
      else repeat DoFitMe (if isAttached (props w) then listening ls else 0)
           ++ [DoFitMe])
     (trace w)).
Proof.
  rewrite attached_unfold. unfold bind at 1. unfold super_attached.
  unfold bind at 1. unfold read at 1.
  destruct (isAttached (props w)).
  - rewrite fire_run.
    cbv [bind set_isAttached read ret async]. cbn.
    destruct (manualFire (props w)); cbn; [now rewrite !app_nil_r|].
    now rewrite <- app_assoc.
  - cbv [bind set_isAttached read ret async]. cbn.
    destruct (manualFire (props w)); cbn; now rewrite ?app_nil_r.
Qed.

Lemma textChanged_run (src : Source) (newText oldText : JsText) (w : World) :
  textChanged src newText oldText w =
  (Normal tt,
   if strict_neq newText oldText && negb (manualFire (props w)) then
     mkWorld (props w)
       (match textFitted (shadow w) with
        | Some _ => write_innerHTML TextFittedSpan (ToString newText) (shadow w)
        | None => shadow w
        end)
       (microtasks w ++ [DoFitMe]) (trace w)
   else w).
Proof.
  destruct src; cbv [textChanged TextfitDiv._textChanged Part000._textChanged
    bind ret read async querySelector_textFitted set_innerHTML];
  destruct (strict_neq newText oldText && negb (manualFire (props w)));
  try reflexivity; now destruct (textFitted (shadow w)).
Qed.

Lemma doFitMe_run (src : Source) (tf : TextFit) (w : World) :
  doFitMe src tf w =
  (Normal tt,
   if negb (isAttached (props w)) then w
   else if (String.length (innerHTML (fitMe (shadow w))) <? 1)%nat then w
   else if (clientHeight (fitMe (shadow w)) <=? 0)%Z
           || (clientWidth (fitMe (shadow w)) <=? 0)%Z
   then emit (ConsoleDebug
     "textfit-div has no size yet, therefore the text can not be fitted.") w
   else
     let o := fitting_options (props w) in
     let r := tf FitMe o (shadow w) in
     mkWorld (props w) (fst r) (microtasks w)
       (trace w ++ TextFitCall FitMe o ::
          match snd r with Some e => [ConsoleWarn e] | None => [] end)).
Proof.
  destruct src;
  cbv [doFitMe TextfitDiv.doFitMe Part000.doFitMe bind ret read dollar_fitMe
    console_debug try_catch get_this call_textFit console_warn emit
    fitting_options];
  destruct (negb (isAttached (props w))); try reflexivity;
  destruct (String.length (innerHTML (fitMe (shadow w))) <? 1)%nat;
    try reflexivity;
  destruct ((clientHeight (fitMe (shadow w)) <=? 0)%Z
            || (clientWidth (fitMe (shadow w)) <=? 0)%Z); try reflexivity;
  cbn; destruct (snd (tf FitMe _ (shadow w))); cbn;
  now rewrite <- ?app_assoc.
Qed.

(** ** Counting and cutting traces *)

Lemma textFit_calls_app (l l' : list Effect) :
  textFit_calls (l ++ l') = textFit_calls l + textFit_calls l'.
Proof. unfold textFit_calls. now rewrite filter_app, length_app. Qed.

Lemma skipn_length_app {A} (l l' : list A) : skipn (length l) (l ++ l') = l'.
Proof. induction l as [|a l IH]; [reflexivity | exact IH]. Qed.

Lemma skipn_length_self {A} (l : list A) : skipn (length l) l = [].
Proof. induction l as [|a l IH]; [reflexivity | exact IH]. Qed.

(** The trace [doFitMe] leaves, by cases on the guard. *)
Lemma doFitMe_emitted (src : Source) (tf : TextFit) (w : World) :
  emitted (doFitMe src tf) w =
  if skipped w then
    if isAttached (props w)
       && negb (String.length (innerHTML (fitMe (shadow w))) <? 1)%nat
    then [ConsoleDebug
      "textfit-div has no size yet, therefore the text can not be fitted."]
    else []
  else
    TextFitCall FitMe (fitting_options (props w)) ::
    match snd (tf FitMe (fitting_options (props w)) (shadow w)) with
    | Some e => [ConsoleWarn e]
    | None => []
    end.
Proof.
  unfold emitted, exec, skipped. rewrite doFitMe_run. cbn [snd].
  destruct (isAttached (props w)); cbn [negb orb andb];
    [|apply skipn_length_self].
  destruct (String.length (innerHTML (fitMe (shadow w))) <? 1)%nat;
    cbn [negb orb andb]; [apply skipn_length_self|].
  destruct ((clientHeight (fitMe (shadow w)) <=? 0)%Z
            || (clientWidth (fitMe (shadow w)) <=? 0)%Z);
    cbn [trace emit]; apply skipn_length_app.
Qed.

Lemma doFitMe_calls (src : Source) (tf : TextFit) (w : World) :
  textFit_calls (trace (exec (doFitMe src tf) w)) =
  textFit_calls (trace w) + if skipped w then 0 else 1.
Proof.
  unfold exec, skipped. rewrite doFitMe_run. cbn [snd].
  destruct (negb (isAttached (props w))); cbn [orb]; [lia|].
  destruct (String.length (innerHTML (fitMe (shadow w))) <? 1)%nat;
    cbn [orb]; [lia|].
  destruct ((clientHeight (fitMe (shadow w)) <=? 0)%Z
            || (clientWidth (fitMe (shadow w)) <=? 0)%Z);
    cbn [trace emit]; rewrite textFit_calls_app.
  - reflexivity.
  - now destruct (snd (tf FitMe (fitting_options (props w)) (shadow w))).
Qed.

Lemma doFitMe_detached (src : Source) (tf : TextFit) (w : World) :
  isAttached (props w) = false -> exec (doFitMe src tf) w = w.
Proof. intros H. unfold exec. now rewrite doFitMe_run, H. Qed.

Lemma doFitMe_props (src : Source) (tf : TextFit) (w : World) :
  props (exec (doFitMe src tf) w) = props w.
Proof.
  unfold exec. rewrite doFitMe_run. cbn [snd].
  destruct (negb (isAttached (props w))); [reflexivity|].
  destruct (String.length (innerHTML (fitMe (shadow w))) <? 1)%nat;
    [reflexivity|].
  now destruct ((clientHeight (fitMe (shadow w)) <=? 0)%Z
                || (clientWidth (fitMe (shadow w)) <=? 0)%Z).
Qed.

Lemma doFitMe_microtasks (src : Source) (tf : TextFit) (w : World) :
  microtasks (exec (doFitMe src tf) w) = microtasks w.
Proof.
  unfold exec. rewrite doFitMe_run. cbn [snd].
  destruct (negb (isAttached (props w))); [reflexivity|].
  destruct (String.length (innerHTML (fitMe (shadow w))) <? 1)%nat;
    [reflexivity|].
  now destruct ((clientHeight (fitMe (shadow w)) <=? 0)%Z
                || (clientWidth (fitMe (shadow w)) <=? 0)%Z).
Qed.

(** ** The guarded call *)

(** C1.  [doFitMe] always returns, and it calls [textFit] not at all when
    the element is detached, or the container's markup is empty, or its
    measured height or width is not positive; in every other case it calls
    [textFit] exactly once. *)
Theorem doFitMe_guard (src : Source) (tf : TextFit) (w : World) :
  completion (doFitMe src tf) w = Normal tt /\
  textFit_calls (emitted (doFitMe src tf) w) =
    if negb (isAttached (props w))
       || (String.length (innerHTML (fitMe (shadow w))) <? 1)%nat
       || (clientHeight (fitMe (shadow w)) <=? 0)%Z
       || (clientWidth (fitMe (shadow w)) <=? 0)%Z
    then 0 else 1.
Proof.
  split.
  - unfold completion. now rewrite doFitMe_run.
  - rewrite doFitMe_emitted. fold (skipped w).
    destruct (skipped w).
    + now destruct (isAttached (props w)
                    && negb (String.length (innerHTML (fitMe (shadow w))) <? 1)%nat).
    + now destruct (snd (tf FitMe (fitting_options (props w)) (shadow w))).
Qed.

(** C2.  When the call of [textFit] throws [e], [doFitMe] still completes
    normally, and what it did is exactly: one call of [textFit], then
    [console.warn(e)].  Nothing is retried and nothing is left scheduled. *)
Theorem doFitMe_catches (src : Source) (tf : TextFit) (w : World)
    (e : JsError) :
  skipped w = false ->
  snd (tf FitMe (fitting_options (props w)) (shadow w)) = Some e ->
  completion (doFitMe src tf) w = Normal tt /\
  emitted (doFitMe src tf) w =
    [TextFitCall FitMe (fitting_options (props w)); ConsoleWarn e] /\
  microtasks (exec (doFitMe src tf) w) = microtasks w.
Proof.
  intros Hs He. repeat split.
  - unfold completion. now rewrite doFitMe_run.
  - now rewrite doFitMe_emitted, Hs, He.
  - apply doFitMe_microtasks.
Qed.

(** On the attached "Hey!" element with a routine that throws. *)
Lemma doFitMe_catches_hey :
  completion (doFitMe textfit_div_js textFit_throwing) hey_attached
    = Normal tt /\
  emitted (doFitMe textfit_div_js textFit_throwing) hey_attached =
    [TextFitCall FitMe (fitting_options (props hey_attached));
     ConsoleWarn "TypeError: el is undefined"] /\
  microtasks (exec (doFitMe textfit_div_js textFit_throwing) hey_attached)
    = microtasks hey_attached.
Proof.
  apply (doFitMe_catches textfit_div_js textFit_throwing hey_attached
           "TypeError: el is undefined"); reflexivity.
Defined.

(** C4.  Whenever [doFitMe] calls [textFit], the first argument is the
    [fitMe] element and each option is the current value of the property it
    is read from, untransformed. *)
Theorem textFit_arguments (src : Source) (tf : TextFit) (w : World)
    (el : NodeRef) (o : Opt.t) :
  In (TextFitCall el o) (emitted (doFitMe src tf) w) ->
  el = FitMe /\
  Opt.alignHoriz o = horizontalCenter (props w) /\
  Opt.alignVert o = verticalCenter (props w) /\
  Opt.multiLine o = multiLine (props w) /\
  Opt.detectMultiLine o = detectMultiLine (props w) /\
  Opt.minFontSize o = minFontSize (props w) /\
  Opt.maxFontSize o = maxFontSize (props w) /\
  Opt.reProcess o = reProcess (props w) /\
  Opt.widthOnly o = widthOnly (props w) /\
  Opt.alignVertWithFlexbox o = alignVertWithFlexbox (props w).
Proof.
  rewrite doFitMe_emitted. intros Hin.
  assert (Hcall : TextFitCall el o
                  = TextFitCall FitMe (fitting_options (props w))).
  { destruct (skipped w).
    - destruct (isAttached (props w)
                && negb (String.length (innerHTML (fitMe (shadow w))) <? 1)%nat);
        cbn in Hin; [destruct Hin as [Hin|[]]; discriminate | contradiction].
    - destruct Hin as [Hin|Hin]; [now symmetry|].
      destruct (snd (tf FitMe (fitting_options (props w)) (shadow w)));
        cbn in Hin; [destruct Hin as [Hin|[]]; discriminate | contradiction]. }
  inversion Hcall; subst. cbn. repeat split; reflexivity.
Qed.

(** On the attached "Hey!" element: the call is there, with the defaults. *)
Lemma textFit_arguments_hey :
  In (TextFitCall FitMe hey_options)
     (emitted (doFitMe textfit_div_js textFit_wrapping) hey_attached) /\
  (FitMe = FitMe /\
   Opt.alignHoriz hey_options = horizontalCenter (props hey_attached) /\
   Opt.alignVert hey_options = verticalCenter (props hey_attached) /\
   Opt.multiLine hey_options = multiLine (props hey_attached) /\
   Opt.detectMultiLine hey_options = detectMultiLine (props hey_attached) /\
   Opt.minFontSize hey_options = minFontSize (props hey_attached) /\
   Opt.maxFontSize hey_options = maxFontSize (props hey_attached) /\
   Opt.reProcess hey_options = reProcess (props hey_attached) /\
   Opt.widthOnly hey_options = widthOnly (props hey_attached) /\
   Opt.alignVertWithFlexbox hey_options
     = alignVertWithFlexbox (props hey_attached)).
Proof.
  assert (Hin : In (TextFitCall FitMe hey_options)
                  (emitted (doFitMe textfit_div_js textFit_wrapping)
                     hey_attached)).
  { vm_compute. left. reflexivity. }
  split; [exact Hin|].
  exact (textFit_arguments textfit_div_js textFit_wrapping hey_attached
           FitMe hey_options Hin).
Defined.

(** C7.  [doFitMe] writes none of the element's properties and schedules
    nothing, whatever [textFit] does, throwing included. *)
Theorem doFitMe_frame (src : Source) (tf : TextFit) (w : World) :
  props (exec (doFitMe src tf) w) = props w /\
  microtasks (exec (doFitMe src tf) w) = microtasks w.
Proof. split; [apply doFitMe_props | apply doFitMe_microtasks]. Qed.

(** ** The handlers *)

Lemma emitted_nothing {A} (m : Js A) (w : World) :
  trace (exec m w) = trace w -> emitted m w = [].
Proof. unfold emitted. intros ->. apply skipn_length_self. Qed.

(** C5.  With [manualFire] off, [attached], the text observer and the
    resize handler call nothing outside the element while they run; all they
    do about fitting is to put [doFitMe] on the queue, to be run at a later
    checkpoint: the observer once when the text did change, the resize
    handler once, and [attached] once for itself behind one for every
    listener that its inherited hook re-enters on an element already marked
    attached. *)
Theorem handlers_defer_fitting (src : Source) (w : World)
    (ls : list Listener) (newText oldText : JsText) :
  manualFire (props w) = false ->
  (emitted (attached src ls) w = [] /\
   microtasks (exec (attached src ls) w) =
     microtasks w ++
     repeat DoFitMe (if isAttached (props w) then listening ls else 0) ++
     [DoFitMe]) /\
  (emitted (textChanged src newText oldText) w = [] /\
   microtasks (exec (textChanged src newText oldText) w) =
     microtasks w ++ if strict_neq newText oldText then [DoFitMe] else []) /\
  (emitted (ironResize src) w = [] /\
   microtasks (exec (ironResize src) w) = microtasks w ++ [DoFitMe]).
Proof.
  intros Hm. repeat split.
  - apply emitted_nothing. unfold exec. now rewrite attached_run.
  - unfold exec. now rewrite attached_run, Hm.
  - apply emitted_nothing. unfold exec. rewrite textChanged_run. cbn [snd].
    now destruct (strict_neq newText oldText && negb (manualFire (props w))).
  - unfold exec. rewrite textChanged_run, Hm. cbn [snd negb].
    rewrite andb_true_r.
    destruct (strict_neq newText oldText); [reflexivity|].
    now rewrite app_nil_r.
  - apply emitted_nothing. unfold exec. now rewrite ironResize_run.
  - unfold exec. now rewrite ironResize_run, Hm.
Qed.

(** On the fitted "Hey!" element, whose queue is idle and which carries the
    listener of its first connection. *)
Lemma handlers_defer_fitting_hey :
  manualFire (props hey_fitted) = false /\
  ((emitted (attached textfit_div_js
               [mkListener "iron-resize" (Bound M_onIronResize 0)])
      hey_fitted = [] /\
    microtasks (exec (attached textfit_div_js
                        [mkListener "iron-resize" (Bound M_onIronResize 0)])
                  hey_fitted) = [DoFitMe; DoFitMe]) /\
   (emitted (textChanged textfit_div_js (JsString "Ho!") (JsString "Hey!"))
      hey_fitted = [] /\
    microtasks (exec (textChanged textfit_div_js (JsString "Ho!")
                        (JsString "Hey!")) hey_fitted) = [DoFitMe]) /\
   (emitted (ironResize textfit_div_js) hey_fitted = [] /\
    microtasks (exec (ironResize textfit_div_js) hey_fitted) = [DoFitMe])).
Proof.
  split; [reflexivity|].
  apply (handlers_defer_fitting textfit_div_js hey_fitted
           [mkListener "iron-resize" (Bound M_onIronResize 0)]
           (JsString "Ho!") (JsString "Hey!")).
  reflexivity.
Defined.

Lemma strict_neq_false (a b : JsText) : strict_neq a b = false <-> a = b.
Proof.
  destruct a as [|s], b as [|t]; cbn; split; intros H;
    try reflexivity; try discriminate.
  - apply negb_false_iff, String.eqb_eq in H. now subst.
  - injection H as ->. now rewrite String.eqb_refl.
Qed.

(** C9.  [_textChanged] schedules a refit exactly when the new text differs
    from the old one and [manualFire] is off.  When it does, and the shadow
    root holds a [textFitted] element, that element's [innerHTML] has become
    the new text by the time the handler returns, with the refit still
    waiting at the end of the queue.  With equal texts the world is left as
    it was. *)
Theorem textChanged_refit (src : Source) (w : World)
    (newText oldText : JsText) :
  microtasks (exec (textChanged src newText oldText) w) =
    microtasks w ++
    (if strict_neq newText oldText && negb (manualFire (props w))
     then [DoFitMe] else []) /\
  (forall span : Element,
     strict_neq newText oldText = true ->
     manualFire (props w) = false ->
     textFitted (shadow w) = Some span ->
     textFitted (shadow (exec (textChanged src newText oldText) w)) =
       Some (mkElement (ToString newText) (clientHeight span)
               (clientWidth span)) /\
     fitMe (shadow (exec (textChanged src newText oldText) w)) =
       fitMe (shadow w) /\
     microtasks (exec (textChanged src newText oldText) w) =
       microtasks w ++ [DoFitMe] /\
     trace (exec (textChanged src newText oldText) w) = trace w) /\
  (newText = oldText -> exec (textChanged src newText oldText) w = w).
Proof.
  unfold exec. rewrite textChanged_run. cbn [snd]. split; [|split].
  - destruct (strict_neq newText oldText && negb (manualFire (props w)));
      [reflexivity | now rewrite app_nil_r].
  - intros span Hneq Hmanual Hspan. rewrite Hneq, Hmanual. cbn.
    rewrite Hspan. cbn. rewrite ?Hspan. cbn. repeat split; reflexivity.
  - intros Heq. apply strict_neq_false in Heq. now rewrite Heq.
Qed.

(** On the fitted "Hey!" element, whose shadow root holds the span. *)
Lemma textChanged_refit_hey :
  textFitted (shadow hey_fitted) = Some (mkElement "Hey!" 40 120) /\
  textFitted (shadow (exec (textChanged textfit_div_js (JsString "Ho!")
                              (JsString "Hey!")) hey_fitted))
    = Some (mkElement "Ho!" 40 120) /\
  microtasks (exec (textChanged textfit_div_js (JsString "Ho!")
                      (JsString "Hey!")) hey_fitted) = [DoFitMe] /\
  exec (textChanged textfit_div_js (JsString "Hey!") (JsString "Hey!"))
    hey_fitted = hey_fitted.
Proof.
  destruct (textChanged_refit textfit_div_js hey_fitted (JsString "Ho!")
              (JsString "Hey!")) as (_ & Hspan & _).
  destruct (Hspan (mkElement "Hey!" 40 120) eq_refl eq_refl eq_refl)
    as (Hs & _ & Hq & _).
  destruct (textChanged_refit textfit_div_js hey_fitted (JsString "Hey!")
              (JsString "Hey!")) as (_ & _ & Hsame).
  split; [reflexivity|].
  split; [exact Hs|].
  split; [exact Hq | exact (Hsame eq_refl)].
Defined.

(** ** Running the queue *)

Lemma run_callbacks_props (src : Source) (tf : TextFit) (cbs : list Callback) :
  forall w, props (run_callbacks src tf cbs w) = props w.
Proof.
  induction cbs as [|[] cbs IH]; intros w; cbn; [reflexivity|].
  rewrite IH. apply doFitMe_props.
Qed.

Lemma run_callbacks_microtasks (src : Source) (tf : TextFit)
    (cbs : list Callback) :
  forall w, microtasks (run_callbacks src tf cbs w) = microtasks w.
Proof.
  induction cbs as [|[] cbs IH]; intros w; cbn; [reflexivity|].
  rewrite IH. apply doFitMe_microtasks.
Qed.

Lemma run_callbacks_detached (src : Source) (tf : TextFit)
    (cbs : list Callback) (w : World) :
  isAttached (props w) = false -> run_callbacks src tf cbs w = w.
Proof.
  intros H. induction cbs as [|[] cbs IH]; cbn; [reflexivity|].
  now rewrite doFitMe_detached.
Qed.

Lemma run_callbacks_calls (src : Source) (tf : TextFit) (cbs : list Callback) :
  forall w,
    textFit_calls (trace (run_callbacks src tf cbs w))
    <= textFit_calls (trace w) + length cbs.
Proof.
  induction cbs as [|[] cbs IH]; intros w; cbn; [lia|].
  specialize (IH (exec (doFitMe src tf) w)).
  rewrite doFitMe_calls in IH. destruct (skipped w); lia.
Qed.

Lemma flush_props (src : Source) (tf : TextFit) (w : World) :
  props (flush src tf w) = props w.
Proof. unfold flush. now rewrite run_callbacks_props. Qed.

Lemma flush_idle (src : Source) (tf : TextFit) (w : World) :
  microtasks w = [] -> flush src tf w = w.
Proof. unfold flush. intros H. rewrite H. cbn. rewrite <- H. apply world_eta. Qed.

Lemma set_text_run (src : Source) (v : string) (w : World) :
  exec (set_text src v) w =
  if String.eqb v (text (props w)) then w
  else exec (textChanged src (JsString v) (JsString (text (props w))))
         (mkWorld (with_text v (props w)) (shadow w) (microtasks w) (trace w)).
Proof.
  unfold exec, set_text, bind, read, ret. cbn.
  destruct (String.eqb v (text (props w))); [reflexivity|].
  now destruct (textChanged src _ _ _) as [[] ?].
Qed.

Lemma run_cons (src : Source) (tf : TextFit) (ev : Event) (evs : list Event)
    (w : World) :
  run src tf (ev :: evs) w = run src tf evs (step src tf ev w).
Proof. reflexivity. Qed.

(** ** Manual mode *)

Lemma step_manual (src : Source) (tf : TextFit) (ev : Event) (w : World) :
  manualFire (props w) = true ->
  microtasks w = [] ->
  automatic ev = true ->
  manualFire (props (step src tf ev w)) = true /\
  microtasks (step src tf ev w) = [] /\
  trace (step src tf ev w) = trace w.
Proof.
  intros Hm Hq Hev.
  destruct ev as [ls | | newText oldText | | | | v | a | d]; cbn [step].
  - unfold exec. rewrite attached_run, Hm, Hq. now cbn.
  - unfold exec. rewrite detached_run. now cbn.
  - unfold exec. rewrite textChanged_run, Hm, andb_false_r. now cbn.
  - unfold exec. rewrite ironResize_run, Hm, Hq. now cbn.
  - discriminate.
  - now rewrite flush_idle.
  - rewrite set_text_run. destruct (String.eqb v (text (props w))); [easy|].
    unfold exec. rewrite textChanged_run. cbn [props with_text manualFire].
    rewrite Hm, andb_false_r. now cbn.
  - destruct a; try discriminate; destruct (props w) eqn:Hp; cbn in *;
      repeat split; assumption || reflexivity.
  - now cbn.
Qed.

Lemma run_manual (src : Source) (tf : TextFit) (evs : list Event) :
  forall w,
    manualFire (props w) = true ->
    microtasks w = [] ->
    forallb automatic evs = true ->
    trace (run src tf evs w) = trace w.
Proof.
  induction evs as [|ev evs IH]; intros w Hm Hq Hevs; [reflexivity|].
  cbn [forallb] in Hevs. apply andb_prop in Hevs as [Hev Hevs].
  destruct (step_manual src tf ev w Hm Hq Hev) as (Hm' & Hq' & Ht').
  rewrite run_cons, IH; assumption.
Qed.

(** C8.  With [manualFire] on, [attached] (whatever listeners its hook
    re-enters), the text observer and the resize handler leave the queue as
    it is; from an idle queue no sequence of
    automatic events, checkpoints included, reaches [textFit]; a call of
    [doFitMe] by the page still fits, under the usual guard. *)
Theorem manualFire_disables_automatic_fit (src : Source) (tf : TextFit)
    (w : World) :
  manualFire (props w) = true ->
  (forall (ls : list Listener) (newText oldText : JsText),
     microtasks (exec (attached src ls) w) = microtasks w /\
     microtasks (exec (textChanged src newText oldText) w) = microtasks w /\
     microtasks (exec (ironResize src) w) = microtasks w) /\
  (forall evs : list Event,
     microtasks w = [] ->
     forallb automatic evs = true ->
     trace (run src tf evs w) = trace w) /\
  textFit_calls (trace (step src tf ManualDoFitMe w)) =
    textFit_calls (trace w) + if skipped w then 0 else 1.
Proof.
  intros Hm. split; [|split].
  - intros ls newText oldText. unfold exec.
    rewrite attached_run, textChanged_run, ironResize_run, Hm, andb_false_r.
    cbn. now rewrite app_nil_r.
  - intros evs Hq Hevs. now apply run_manual.
  - apply doFitMe_calls.
Qed.

(** On the "Hey!" element in manual mode: attaching, resizing, changing the
    text and reaching a checkpoint call nothing. *)
Lemma manualFire_disables_automatic_fit_hey :
  manualFire (props hey_manual) = true /\
  microtasks (exec (attached textfit_div_js
                      [mkListener "iron-resize" (Bound M_onIronResize 0)])
                hey_manual) = [] /\
  trace (run textfit_div_js textFit_wrapping
           [Attached [mkListener "iron-resize" (Bound M_onIronResize 0)];
            IronResize;
            TextChanged (JsString "Ho!") (JsString "Hey!"); Microtasks]
           hey_manual) = [].
Proof.
  destruct (manualFire_disables_automatic_fit textfit_div_js textFit_wrapping
              hey_manual eq_refl) as (Hh & Hrun & _).
  destruct (Hh [mkListener "iron-resize" (Bound M_onIronResize 0)]
              JsUndefined JsUndefined) as (Ha & _).
  split; [reflexivity|].
  split; [exact Ha|].
  exact (Hrun [Attached [mkListener "iron-resize" (Bound M_onIronResize 0)];
               IronResize; TextChanged (JsString "Ho!") (JsString "Hey!"); Microtasks]
           eq_refl eq_refl).
Defined.

(** ** Attachment *)

Lemma isAttached_assign (a : Assign) (p : Properties) :
  isAttached (assign a p) = isAttached p.
Proof. now destruct p, a. Qed.

Lemma textChanged_props (src : Source) (newText oldText : JsText)
    (w : World) :
  props (exec (textChanged src newText oldText) w) = props w.
Proof.
  unfold exec. rewrite textChanged_run. cbn [snd].
  now destruct (strict_neq newText oldText && negb (manualFire (props w))).
Qed.

Lemma textChanged_trace (src : Source) (newText oldText : JsText)
    (w : World) :
  trace (exec (textChanged src newText oldText) w) = trace w.
Proof.
  unfold exec. rewrite textChanged_run. cbn [snd].
  now destruct (strict_neq newText oldText && negb (manualFire (props w))).
Qed.

Lemma textChanged_queue (src : Source) (newText oldText : JsText)
    (w : World) :
  exists l,
    microtasks (exec (textChanged src newText oldText) w) = microtasks w ++ l.
Proof.
  unfold exec. rewrite textChanged_run. cbn [snd].
  destruct (strict_neq newText oldText && negb (manualFire (props w)));
    [now exists [DoFitMe] | exists []; now rewrite app_nil_r].
Qed.

Lemma step_isAttached (src : Source) (tf : TextFit) (ev : Event) (w : World) :
  isAttached (props (step src tf ev w)) = lifecycle (isAttached (props w)) ev.
Proof.
  destruct ev as [ls | | newText oldText | | | | v | a | d];
    cbn [step lifecycle].
  - unfold exec. now rewrite attached_run.
  - unfold exec. now rewrite detached_run.
  - now rewrite textChanged_props.
  - unfold exec. now rewrite ironResize_run.
  - now rewrite doFitMe_props.
  - now rewrite flush_props.
  - rewrite set_text_run. destruct (String.eqb v (text (props w)));
      [reflexivity | now rewrite textChanged_props].
  - apply isAttached_assign.
  - reflexivity.
Qed.

Lemma run_isAttached (src : Source) (tf : TextFit) (evs : list Event) :
  forall w,
    isAttached (props (run src tf evs w))
    = fold_left lifecycle evs (isAttached (props w)).
Proof.
  induction evs as [|ev evs IH]; intros w; [reflexivity|].
  rewrite run_cons, IH, step_isAttached. reflexivity.
Qed.

Lemma step_detached_trace (src : Source) (tf : TextFit) (ev : Event)
    (w : World) :
  isAttached (props w) = false ->
  is_Attached ev = false ->
  trace (step src tf ev w) = trace w.
Proof.
  intros Hd Hev.
  destruct ev as [ls | | newText oldText | | | | v | a | d]; cbn [step].
  - discriminate.
  - unfold exec. now rewrite detached_run.
  - apply textChanged_trace.
  - unfold exec. now rewrite ironResize_run.
  - now rewrite doFitMe_detached.
  - unfold flush. now rewrite run_callbacks_detached.
  - rewrite set_text_run. destruct (String.eqb v (text (props w)));
      [reflexivity | now rewrite textChanged_trace].
  - reflexivity.
  - reflexivity.
Qed.

Lemma run_detached_trace (src : Source) (tf : TextFit) (evs : list Event) :
  forall w,
    isAttached (props w) = false ->
    forallb (fun ev => negb (is_Attached ev)) evs = true ->
    trace (run src tf evs w) = trace w.
Proof.
  induction evs as [|ev evs IH]; intros w Hd Hevs; [reflexivity|].
  cbn [forallb] in Hevs. apply andb_prop in Hevs as [Hev Hevs].
  apply negb_true_iff in Hev.
  rewrite run_cons, IH; [now apply step_detached_trace | | assumption].
  rewrite step_isAttached. now destruct ev.
Qed.

Lemma step_keeps_queue (src : Source) (tf : TextFit) (ev : Event) (w : World) :
  ev <> Microtasks ->
  exists l, microtasks (step src tf ev w) = microtasks w ++ l.
Proof.
  intros Hev.
  destruct ev as [ls | | newText oldText | | | | v | a | d]; cbn [step].
  - unfold exec. rewrite attached_run. now eexists.
  - unfold exec. rewrite detached_run. exists []. now rewrite app_nil_r.
  - apply textChanged_queue.
  - unfold exec. rewrite ironResize_run. now eexists.
  - rewrite doFitMe_microtasks. exists []. now rewrite app_nil_r.
  - contradiction.
  - rewrite set_text_run. destruct (String.eqb v (text (props w))).
    + exists []. now rewrite app_nil_r.
    + apply (textChanged_queue src _ _
               (mkWorld (with_text v (props w)) (shadow w) (microtasks w)
                  (trace w))).
  - exists []. now rewrite app_nil_r.
  - exists []. now rewrite app_nil_r.
Qed.

(** C6.  From a fresh instance, [isAttached] is true exactly when the last
    of the [attached]/[detached] calls so far was [attached].  Once
    [detached] has run and until [attached] runs again, nothing reaches
    [textFit] or the console, whatever was scheduled before and whichever
    checkpoints and calls follow.  [detached] itself only clears the flag:
    the queue is untouched, and no event but the checkpoint, which runs the
    callbacks, ever takes a scheduled callback off the queue. *)
Theorem isAttached_lifecycle (src : Source) (tf : TextFit) :
  (forall (d : ShadowRoot) (evs : list Event),
     isAttached (props (run src tf evs (initial src d)))
     = fold_left lifecycle evs false) /\
  (forall (w : World) (evs : list Event),
     forallb (fun ev => negb (is_Attached ev)) evs = true ->
     trace (run src tf (Detached :: evs) w) = trace w) /\
  (forall w : World,
     exec (detached src) w =
     mkWorld (with_isAttached false (props w)) (shadow w) (microtasks w)
       (trace w)) /\
  (forall (w : World) (ev : Event),
     ev <> Microtasks ->
     exists l, microtasks (step src tf ev w) = microtasks w ++ l).
Proof.
  repeat split.
  - intros d evs. rewrite run_isAttached. now destruct src.
  - intros w evs Hevs. rewrite run_cons, run_detached_trace; try assumption.
    + cbn [step]. unfold exec. now rewrite detached_run.
    + now rewrite step_isAttached.
  - intros w. unfold exec. now rewrite detached_run.
  - intros w ev. apply step_keeps_queue.
Qed.

(** On the fitted "Hey!" element: a refit scheduled by a resize, then
    [detached], then the checkpoint and a call by the page, add nothing to
    the trace. *)
Lemma isAttached_lifecycle_hey :
  isAttached (props hey_fitted) = true /\
  microtasks (step textfit_div_js textFit_wrapping IronResize hey_fitted)
    = [DoFitMe] /\
  trace (run textfit_div_js textFit_wrapping
           (Detached :: [Microtasks; ManualDoFitMe])
           (step textfit_div_js textFit_wrapping IronResize hey_fitted))
    = trace (step textfit_div_js textFit_wrapping IronResize hey_fitted) /\
  (exists l,
     microtasks (step textfit_div_js textFit_wrapping Detached
                   (step textfit_div_js textFit_wrapping IronResize
                      hey_fitted))
     = [DoFitMe] ++ l).
Proof.
  destruct (isAttached_lifecycle textfit_div_js textFit_wrapping)
    as (Hinv & Hskip & _ & Hkeep).
  split; [exact (Hinv hey_document [Attached []; Microtasks])|].
  split; [reflexivity|].
  split.
  - exact (Hskip (step textfit_div_js textFit_wrapping IronResize hey_fitted)
             [Microtasks; ManualDoFitMe] eq_refl).
  - apply (Hkeep (step textfit_div_js textFit_wrapping IronResize hey_fitted)
             Detached).
    discriminate.
Defined.

(** ** Several events before one checkpoint *)

Lemma step_trigger (src : Source) (tf : TextFit) (ev : Event) (w : World) :
  is_trigger ev = true ->
  props (step src tf ev w) = props w /\
  trace (step src tf ev w) = trace w /\
  microtasks (step src tf ev w)
  = microtasks w ++ scheduled_by (manualFire (props w)) ev.
Proof.
  destruct ev as [ls | | newText oldText | | | | v | a | d]; try discriminate;
    intros _; cbn [step scheduled_by]; unfold exec.
  - rewrite textChanged_run. cbn [snd].
    destruct (strict_neq newText oldText && negb (manualFire (props w)));
      cbn; now rewrite ?app_nil_r.
  - rewrite ironResize_run. now cbn.
Qed.

Lemma run_triggers (src : Source) (tf : TextFit) (evs : list Event) :
  forall w,
    forallb is_trigger evs = true ->
    props (run src tf evs w) = props w /\
    trace (run src tf evs w) = trace w /\
    microtasks (run src tf evs w)
    = microtasks w ++ flat_map (scheduled_by (manualFire (props w))) evs.
Proof.
  induction evs as [|ev evs IH]; intros w Hevs.
  - cbn. now rewrite app_nil_r.
  - cbn [forallb] in Hevs. apply andb_prop in Hevs as [Hev Hevs].
    destruct (step_trigger src tf ev w Hev) as (Hp & Ht & Hq).
    destruct (IH (step src tf ev w) Hevs) as (Hp' & Ht' & Hq').
    rewrite run_cons, Hp', Ht', Hq', Hp, Ht, Hq. cbn [flat_map].
    now rewrite app_assoc.
Qed.

Lemma scheduled_by_length (manual : bool) (evs : list Event) :
  length (flat_map (scheduled_by manual) evs) <= length evs.
Proof.
  induction evs as [|ev evs IH]; cbn [flat_map length]; [lia|].
  rewrite length_app.
  assert (length (scheduled_by manual ev) <= 1); [|lia].
  destruct ev as [ls | | newText oldText | | | | v | a | d]; cbn; try lia.
  - destruct (strict_neq newText oldText && negb manual); cbn; lia.
  - destruct manual; cbn; lia.
Qed.

Lemma flush_calls (src : Source) (tf : TextFit) (w : World) :
  textFit_calls (trace (flush src tf w))
  <= textFit_calls (trace w) + length (microtasks w).
Proof.
  unfold flush.
  apply (run_callbacks_calls src tf (microtasks w)
           (mkWorld (props w) (shadow w) [] (trace w))).
Qed.

(** Handler runs are not merged: each run of the resize handler or of the
    text observer that schedules at all schedules a [doFitMe] of its own,
    behind those already waiting, and the checkpoint that follows makes at
    most one call of [textFit] per waiting callback. *)
Lemma handler_runs_not_merged (src : Source) (tf : TextFit)
    (evs : list Event) (w : World) :
  forallb is_trigger evs = true ->
  microtasks (run src tf evs w)
  = microtasks w ++ flat_map (scheduled_by (manualFire (props w))) evs /\
  textFit_calls (trace (flush src tf (run src tf evs w)))
  <= textFit_calls (trace w) + length (microtasks w) + length evs.
Proof.
  intros Hevs. destruct (run_triggers src tf evs w Hevs) as (_ & Ht & Hq).
  split; [exact Hq|].
  pose proof (flush_calls src tf (run src tf evs w)) as Hf.
  rewrite Ht, Hq, length_app in Hf.
  pose proof (scheduled_by_length (manualFire (props w)) evs). lia.
Qed.


(** * Further properties of the operations *)

(** ** [doFitMe] at its edges *)

Lemma length_lt_1_empty (s : string) :
  (String.length s <? 1)%nat = true <-> s = "".
Proof.
  destruct s; cbn; split; intros H; try reflexivity; discriminate.
Qed.

(** X1.  Called on a detached element, or on a container without markup,
    [doFitMe] leaves the whole world as it found it: no call, no console
    output, the document and the queue untouched. *)
Theorem doFitMe_detached_or_empty (src : Source) (tf : TextFit) (w : World) :
  isAttached (props w) = false \/ innerHTML (fitMe (shadow w)) = "" ->
  exec (doFitMe src tf) w = w.
Proof.
  intros [Hd|He]; unfold exec; rewrite doFitMe_run; cbn [snd].
  - now rewrite Hd.
  - apply length_lt_1_empty in He. rewrite He.
    now destruct (negb (isAttached (props w))).
Qed.

Lemma doFitMe_detached_or_empty_hey :
  exec (doFitMe textfit_div_js textFit_wrapping)
    (initial textfit_div_js hey_document)
  = initial textfit_div_js hey_document.
Proof.
  apply (doFitMe_detached_or_empty textfit_div_js textFit_wrapping
           (initial textfit_div_js hey_document)).
  left. reflexivity.
Defined.

(** X2.  On an attached element with markup whose container measures no
    height or no width (zero or negative), [doFitMe] writes the one debug
    message and does nothing else; [textFit] is not consulted. *)
Theorem doFitMe_without_size (src : Source) (tf : TextFit) (w : World) :
  isAttached (props w) = true ->
  innerHTML (fitMe (shadow w)) <> "" ->
  (clientHeight (fitMe (shadow w)) <= 0
   \/ clientWidth (fitMe (shadow w)) <= 0)%Z ->
  exec (doFitMe src tf) w =
  emit (ConsoleDebug
    "textfit-div has no size yet, therefore the text can not be fitted.") w.
Proof.
  intros Ha Hne Hsz. unfold exec. rewrite doFitMe_run, Ha. cbn [snd negb].
  destruct (String.length (innerHTML (fitMe (shadow w))) <? 1)%nat eqn:Hl.
  - apply length_lt_1_empty in Hl. contradiction.
  - assert (Hz : ((clientHeight (fitMe (shadow w)) <=? 0)%Z
                  || (clientWidth (fitMe (shadow w)) <=? 0)%Z) = true).
    { apply orb_true_iff. destruct Hsz as [H|H]; [left|right];
        now apply Z.leb_le. }
    now rewrite Hz.
Qed.

Lemma doFitMe_without_size_hey :
  exec (doFitMe textfit_div_js textFit_wrapping)
    (step textfit_div_js textFit_wrapping
       (Document (mkShadowRoot (mkElement "Hey!" 0 120) None))
       hey_attached)
  = emit (ConsoleDebug
      "textfit-div has no size yet, therefore the text can not be fitted.")
      (step textfit_div_js textFit_wrapping
         (Document (mkShadowRoot (mkElement "Hey!" 0 120) None))
         hey_attached).
Proof.
  apply (doFitMe_without_size textfit_div_js textFit_wrapping).
  - reflexivity.
  - discriminate.
  - left. reflexivity.
Defined.

Lemma fitting_options_manual_text (b : bool) (s : string) (p : Properties) :
  fitting_options (with_text s (assign (SetManualFire b) p))
  = fitting_options p.
Proof. now destruct p. Qed.

(** X3.  [doFitMe] looks neither at [manualFire] nor at [text]: with either
    changed it makes the same calls, with the same options, and leaves the
    same document.  Manual mode blocks neither a call by the page nor a
    callback that is already waiting. *)
Theorem doFitMe_ignores_manualFire (src : Source) (tf : TextFit) (w : World)
    (b : bool) (s : string) :
  let w' := mkWorld (with_text s (assign (SetManualFire b) (props w)))
              (shadow w) (microtasks w) (trace w) in
  emitted (doFitMe src tf) w' = emitted (doFitMe src tf) w /\
  shadow (exec (doFitMe src tf) w') = shadow (exec (doFitMe src tf) w).
Proof.
  cbn zeta. split.
  - rewrite !doFitMe_emitted. unfold skipped. cbn [props shadow].
    rewrite fitting_options_manual_text.
    now destruct (props w).
  - unfold exec. rewrite !doFitMe_run. cbn [snd props shadow].
    rewrite fitting_options_manual_text.
    assert (Hia : isAttached (with_text s (assign (SetManualFire b) (props w)))
                  = isAttached (props w)) by now destruct (props w).
    rewrite Hia.
    destruct (negb (isAttached (props w))); [reflexivity|].
    destruct (String.length (innerHTML (fitMe (shadow w))) <? 1)%nat;
      [reflexivity|].
    now destruct ((clientHeight (fitMe (shadow w)) <=? 0)%Z
                  || (clientWidth (fitMe (shadow w)) <=? 0)%Z).
Qed.

Lemma skipped_assign (a : Assign) (w : World) :
  skipped (mkWorld (assign a (props w)) (shadow w) [] (trace w)) = skipped w.
Proof. unfold skipped. cbn [props shadow]. now rewrite isAttached_assign. Qed.

Lemma doFitMe_fits (src : Source) (tf : TextFit) (w : World) :
  skipped w = false ->
  exec (doFitMe src tf) w =
  mkWorld (props w)
    (fst (tf FitMe (fitting_options (props w)) (shadow w)))
    (microtasks w)
    (trace w ++ TextFitCall FitMe (fitting_options (props w)) ::
       match snd (tf FitMe (fitting_options (props w)) (shadow w)) with
       | Some e => [ConsoleWarn e]
       | None => []
       end).
Proof.
  unfold skipped, exec. intros H. rewrite doFitMe_run. cbn [snd].
  apply orb_false_elim in H as [H Hw].
  apply orb_false_elim in H as [H Hh].
  apply orb_false_elim in H as [Ha Hl].
  now rewrite Ha, Hl, Hh, Hw.
Qed.

(** X4.  The options are read when the callback runs, not when it is
    scheduled: a refit scheduled by a resize, followed by an assignment to a
    property and then the checkpoint, calls [textFit] once, with the options
    as the assignment left them.  Turning [manualFire] on at that point does
    not stop the callback. *)
Theorem scheduled_fit_reads_late (src : Source) (tf : TextFit) (w : World)
    (a : Assign) :
  microtasks w = [] ->
  manualFire (props w) = false ->
  skipped w = false ->
  trace (run src tf [IronResize; Assignment a; Microtasks] w) =
  trace w ++
  TextFitCall FitMe (fitting_options (assign a (props w))) ::
  match snd (tf FitMe (fitting_options (assign a (props w))) (shadow w)) with
  | Some e => [ConsoleWarn e]
  | None => []
  end.
Proof.
  intros Hq Hm Hs.
  assert (Hstep : step src tf IronResize w
                  = mkWorld (props w) (shadow w) [DoFitMe] (trace w)).
  { cbn [step]. unfold exec. now rewrite ironResize_run, Hm, Hq. }
  rewrite run_cons, Hstep.
  cbn [run fold_left step flush props shadow microtasks trace run_callbacks
       callback_body].
  rewrite doFitMe_fits; [reflexivity|].
  now rewrite skipped_assign.
Qed.

Lemma scheduled_fit_reads_late_hey :
  trace (run textfit_div_js textFit_wrapping
           [IronResize; Assignment (SetMaxFontSize 72); Microtasks]
           hey_fitted) =
  trace hey_fitted ++
  [TextFitCall FitMe (Opt.mk false false false true 6 72 true false false)].
Proof.
  exact (scheduled_fit_reads_late textfit_div_js textFit_wrapping hey_fitted
           (SetMaxFontSize 72) eq_refl eq_refl eq_refl).
Defined.

Lemma skipped_fittable (w : World) :
  skipped w = negb (isAttached (props w) && fittable (shadow w)).
Proof.
  unfold skipped, fittable.
  destruct (isAttached (props w)); [|reflexivity].
  destruct (String.length (innerHTML (fitMe (shadow w))) <? 1)%nat;
    [reflexivity|].
  destruct (clientHeight (fitMe (shadow w)) <=? 0)%Z; [reflexivity|].
  now destruct (clientWidth (fitMe (shadow w)) <=? 0)%Z.
Qed.

Lemma run_callbacks_all_fit (src : Source) (tf : TextFit)
    (cbs : list Callback) :
  (forall o d, fittable d = true -> fittable (fst (tf FitMe o d)) = true) ->
  forall w,
    skipped w = false ->
    textFit_calls (trace (run_callbacks src tf cbs w))
    = textFit_calls (trace w) + length cbs.
Proof.
  intros Htf. induction cbs as [|[] cbs IH]; intros w Hs; cbn; [lia|].
  rewrite IH.
  - rewrite doFitMe_calls, Hs. lia.
  - rewrite doFitMe_fits by assumption.
    rewrite skipped_fittable in *. cbn [props shadow].
    apply negb_false_iff, andb_prop in Hs as [Ha Hf].
    now rewrite Ha, Htf.
Qed.

(** X5.  When the fitting routine leaves the container fittable (markup
    present, positive size), a checkpoint on an attached, fittable element
    calls [textFit] once for every callback that was waiting: none is
    merged, none is dropped. *)
Theorem checkpoint_fits_every_callback (src : Source) (tf : TextFit)
    (w : World) :
  (forall o d, fittable d = true -> fittable (fst (tf FitMe o d)) = true) ->
  isAttached (props w) = true ->
  fittable (shadow w) = true ->
  textFit_calls (trace (flush src tf w))
  = textFit_calls (trace w) + length (microtasks w).
Proof.
  intros Htf Ha Hf. unfold flush.
  rewrite (run_callbacks_all_fit src tf (microtasks w) Htf); [reflexivity|].
  rewrite skipped_fittable. cbn [props shadow]. now rewrite Ha, Hf.
Qed.

Lemma checkpoint_fits_every_callback_hey :
  textFit_calls
    (trace (flush textfit_div_js textFit_wrapping
              (run textfit_div_js textFit_wrapping
                 [IronResize; IronResize; IronResize] hey_fitted)))
  = 1 + 3.
Proof.
  apply (checkpoint_fits_every_callback textfit_div_js textFit_wrapping
           (run textfit_div_js textFit_wrapping
              [IronResize; IronResize; IronResize] hey_fitted)).
  - intros o d Hd. exact Hd.
  - reflexivity.
  - reflexivity.
Defined.

(** X6.  Until [attached] runs for the first time nothing is fitted and
    nothing is logged: from a fresh instance, no sequence of events without
    [attached] adds anything to the trace, checkpoints and calls of
    [doFitMe] by the page included. *)
Theorem nothing_before_first_attach (src : Source) (tf : TextFit)
    (d : ShadowRoot) (evs : list Event) :
  forallb (fun ev => negb (is_Attached ev)) evs = true ->
  trace (run src tf evs (initial src d)) = [].
Proof.
  intros Hevs. rewrite run_detached_trace; try assumption.
  - reflexivity.
  - now destruct src.
Qed.

Lemma nothing_before_first_attach_hey :
  trace (run textfit_div_js textFit_wrapping
           [TextChanged (JsString "Hey!") JsUndefined; IronResize;
            Microtasks; ManualDoFitMe]
           (initial textfit_div_js hey_document)) = [].
Proof.
  exact (nothing_before_first_attach textfit_div_js textFit_wrapping
           hey_document
           [TextChanged (JsString "Hey!") JsUndefined; IronResize;
            Microtasks; ManualDoFitMe] eq_refl).
Defined.

(** ** Invariants of whole runs *)

Lemma flush_queue_empty (src : Source) (tf : TextFit) (w : World) :
  microtasks (flush src tf w) = [].
Proof. unfold flush. now rewrite run_callbacks_microtasks. Qed.

Lemma textChanged_queue_length (src : Source) (newText oldText : JsText)
    (w : World) :
  length (microtasks (exec (textChanged src newText oldText) w))
  <= length (microtasks w) + 1.
Proof.
  unfold exec. rewrite textChanged_run. cbn [snd].
  destruct (strict_neq newText oldText && negb (manualFire (props w)));
    cbn [microtasks]; rewrite ?length_app; cbn; lia.
Qed.

Lemma step_budget (src : Source) (tf : TextFit) (ev : Event) (w : World) :
  textFit_calls (trace (step src tf ev w))
  + length (microtasks (step src tf ev w))
  <= textFit_calls (trace w) + length (microtasks w) + may_cause_fit ev.
Proof.
  destruct ev as [ls | | newText oldText | | | | v | a | d];
    cbn [step may_cause_fit].
  - unfold exec. rewrite attached_run. cbn [snd trace microtasks].
    rewrite length_app.
    destruct (manualFire (props w)); [cbn [length]; lia|].
    rewrite length_app, repeat_length. cbn [length].
    destruct (isAttached (props w)); lia.
  - unfold exec. rewrite detached_run. cbn [snd trace microtasks]. lia.
  - rewrite textChanged_trace.
    pose proof (textChanged_queue_length src newText oldText w). lia.
  - unfold exec. rewrite ironResize_run. cbn [snd trace microtasks].
    rewrite length_app. destruct (manualFire (props w)); cbn; lia.
  - rewrite doFitMe_calls, doFitMe_microtasks. destruct (skipped w); lia.
  - rewrite flush_queue_empty. pose proof (flush_calls src tf w).
    cbn [length]. lia.
  - rewrite set_text_run. destruct (String.eqb v (text (props w))); [lia|].
    rewrite textChanged_trace.
    pose proof (textChanged_queue_length src (JsString v)
                  (JsString (text (props w)))
                  (mkWorld (with_text v (props w)) (shadow w) (microtasks w)
                     (trace w))) as H.
    cbn [trace microtasks] in *. lia.
  - cbn [trace microtasks]. lia.
  - cbn [trace microtasks]. lia.
Qed.

(** X7.  [textFit] is never called more often than the element was given
    cause: over any sequence of events, the calls made plus the callbacks
    still waiting grow by at most one for every run of the resize handler or
    of the text observer and every call of [doFitMe] by the page, and, for
    every run of [attached], by one plus the number of listeners its
    inherited hook could re-enter. *)
Theorem fits_bounded_by_causes (src : Source) (tf : TextFit)
    (evs : list Event) (w : World) :
  textFit_calls (trace (run src tf evs w))
  + length (microtasks (run src tf evs w))
  <= textFit_calls (trace w) + length (microtasks w)
     + list_sum (map may_cause_fit evs).
Proof.
  revert w. induction evs as [|ev evs IH]; intros w; [cbn; lia|].
  rewrite run_cons. specialize (IH (step src tf ev w)).
  pose proof (step_budget src tf ev w).
  unfold list_sum in *. cbn [map fold_right]. lia.
Qed.

(** The check distributes over a trace written in two parts; the second
    part starts behind whatever the first one ends with. *)
Lemma warned_after_call_app (b : bool) (l l' : list Effect) :
  warned_after_call b (l ++ l')
  = warned_after_call b l
    && warned_after_call (fold_left (fun _ e => is_textFit_call e) l b) l'.
Proof.
  revert b. induction l as [|[el o|msg|e] l IH]; intros b; cbn.
  - reflexivity.
  - apply IH.
  - apply IH.
  - now rewrite IH, andb_assoc.
Qed.

Lemma doFitMe_trace (src : Source) (tf : TextFit) (w : World) :
  trace (exec (doFitMe src tf) w) = trace w ++ emitted (doFitMe src tf) w.
Proof.
  rewrite doFitMe_emitted. unfold exec, skipped. rewrite doFitMe_run.
  cbn [snd].
  destruct (isAttached (props w)); cbn [negb orb andb];
    [|now rewrite app_nil_r].
  destruct (String.length (innerHTML (fitMe (shadow w))) <? 1)%nat;
    cbn [negb orb andb]; [now rewrite app_nil_r|].
  now destruct ((clientHeight (fitMe (shadow w)) <=? 0)%Z
                || (clientWidth (fitMe (shadow w)) <=? 0)%Z).
Qed.

Lemma doFitMe_warned (src : Source) (tf : TextFit) (w : World) (b : bool) :
  warned_after_call b (emitted (doFitMe src tf) w) = true.
Proof.
  rewrite doFitMe_emitted. destruct (skipped w).
  - now destruct (isAttached (props w)
                  && negb (String.length (innerHTML (fitMe (shadow w))) <? 1)%nat).
  - now destruct (snd (tf FitMe (fitting_options (props w)) (shadow w))).
Qed.

Lemma run_callbacks_warned (src : Source) (tf : TextFit)
    (cbs : list Callback) :
  forall w,
    warned_after_call false (trace w) = true ->
    warned_after_call false (trace (run_callbacks src tf cbs w)) = true.
Proof.
  induction cbs as [|[] cbs IH]; intros w Hw; cbn; [assumption|].
  apply IH. rewrite doFitMe_trace, warned_after_call_app, Hw.
  apply doFitMe_warned.
Qed.

Lemma step_warned (src : Source) (tf : TextFit) (ev : Event) (w : World) :
  warned_after_call false (trace w) = true ->
  warned_after_call false (trace (step src tf ev w)) = true.
Proof.
  intros Hw.
  destruct ev as [ls | | newText oldText | | | | v | a | d]; cbn [step].
  - unfold exec. now rewrite attached_run.
  - unfold exec. now rewrite detached_run.
  - now rewrite textChanged_trace.
  - unfold exec. now rewrite ironResize_run.
  - rewrite doFitMe_trace, warned_after_call_app, Hw. apply doFitMe_warned.
  - unfold flush. now apply run_callbacks_warned.
  - rewrite set_text_run. destruct (String.eqb v (text (props w)));
      [assumption | now rewrite textChanged_trace].
  - assumption.
  - assumption.
Qed.

(** X8.  Along every history of an instance, each [console.warn] stands
    directly behind a call of [textFit]: the element warns about a failed
    fit and about nothing else. *)
Theorem warnings_follow_calls (src : Source) (tf : TextFit) (d : ShadowRoot)
    (evs : list Event) :
  warned_after_call false (trace (run src tf evs (initial src d))) = true.
Proof.
  assert (H : forall w, warned_after_call false (trace w) = true ->
                        warned_after_call false (trace (run src tf evs w))
                        = true).
  { induction evs as [|ev evs IH]; intros w Hw; [assumption|].
    rewrite run_cons. apply IH. now apply step_warned. }
  apply H. reflexivity.
Qed.

(** ** The text observer at its edges *)

Lemma exec_seq (a b : Js unit) (w w1 : World) :
  a w = (Normal tt, w1) -> exec (bind a (fun _ => b)) w = exec b w1.
Proof. intros H. unfold exec, bind. now rewrite H. Qed.

Lemma textChanged_normal (src : Source) (newText oldText : JsText)
    (w : World) :
  textChanged src newText oldText w
  = (Normal tt, exec (textChanged src newText oldText) w).
Proof. unfold exec. now rewrite textChanged_run. Qed.

Lemma framework_ready_run (src : Source) (w : World) :
  framework_ready src w
  = (Normal tt,
     exec (textChanged src (JsString (text (props w))) JsUndefined) w).
Proof.
  rewrite <- textChanged_normal. reflexivity.
Qed.

Lemma legacy_connected_run (src : Source) (ls : list Listener) (w : World) :
  legacy_connected src ls w =
  (Normal tt,
   mkWorld (with_isAttached true (props w)) (shadow w)
     (microtasks w ++
      if manualFire (props w) then []
      else repeat DoFitMe (listening ls) ++ [DoFitMe])
     (trace w)).
Proof.
  unfold legacy_connected, bind, set_isAttached. now rewrite attached_run.
Qed.

Lemma legacy_disconnected_run (src : Source) (w : World) :
  legacy_disconnected src w =
  (Normal tt,
   mkWorld (with_isAttached false (props w)) (shadow w) (microtasks w)
     (trace w)).
Proof.
  unfold legacy_disconnected, bind, set_isAttached. now rewrite detached_run.
Qed.

Lemma connectedCallback_world (sup : Js unit) (h : Host) :
  world (connectedCallback sup h) = exec sup (world h).
Proof.
  unfold connectedCallback, bind_this, addEventListener, lift.
  cbn [world listeners allocated].
  now destruct (existsb _ (listeners h)).
Qed.

Lemma ready_world (sup : Js unit) (h : Host) :
  world (ready sup h) = exec sup (world h).
Proof.
  unfold ready, addEventListener, lift. cbn [world listeners allocated].
  now destruct (existsb _ (listeners h)).
Qed.

(** The listeners re-entered by the hook at the first [attached()] of a new
    element: none in [src/textfit-div.js], the one added by [ready] in
    [src/unnamed/part_000]. *)
Lemma first_connect_world (src : Source) (w : World) :
  world (first_connect src (new_host w)) =
  exec (legacy_connected src
          (match src with
           | textfit_div_js => []
           | part_000 =>
               [mkListener "iron-resize" (Unbound M__onIronResize)]
           end))
    (exec (textChanged src (JsString (text (props w))) JsUndefined) w).
Proof.
  destruct src; unfold first_connect.
  - rewrite connectedCallback_world. cbn [new_host world listeners].
    apply exec_seq, framework_ready_run.
  - cbn zeta. unfold lift at 1. cbn [world]. rewrite ready_world.
    cbn [new_host world].
    assert (Hw : exec (framework_ready part_000) w
                 = exec (textChanged part_000 (JsString (text (props w)))
                           JsUndefined) w)
      by (unfold exec at 1; now rewrite framework_ready_run).
    rewrite Hw. reflexivity.
Qed.

Lemma first_connect_queue (src : Source) (w : World) :
  manualFire (props w) = false ->
  world (first_connect src (new_host w)) =
  mkWorld (with_isAttached true (props w))
    (match textFitted (shadow w) with
     | Some _ =>
         write_innerHTML TextFittedSpan (text (props w)) (shadow w)
     | None => shadow w
     end)
    (microtasks w ++
     repeat DoFitMe (match src with textfit_div_js => 2 | part_000 => 3 end))
    (trace w).
Proof.
  intros Hm. rewrite first_connect_world.
  unfold exec. rewrite textChanged_run, legacy_connected_run.
  cbn [snd strict_neq]. rewrite Hm. cbn [negb andb props shadow microtasks
                                         trace].
  rewrite Hm, <- app_assoc. now destruct src.
Qed.

(** X9.  At start-up the element fits more than once.  The first run of the
    observer (no old value) schedules a refit although the element is not
    attached yet, and [attached] schedules another; in
    [src/unnamed/part_000], whose listener is registered by [ready] before
    [attached] runs, the inherited hook re-enters the resize handler and
    schedules a third.  The checkpoint that follows runs them all: on a
    fittable container that the routine leaves fittable, [textFit] is called
    two times by [src/textfit-div.js] and three times by
    [src/unnamed/part_000]. *)
Theorem startup_fits (src : Source) (tf : TextFit) (w : World) :
  (forall o d, fittable d = true -> fittable (fst (tf FitMe o d)) = true) ->
  fittable (shadow w) = true ->
  manualFire (props w) = false ->
  microtasks w = [] ->
  microtasks (world (first_connect src (new_host w))) =
    repeat DoFitMe (match src with textfit_div_js => 2 | part_000 => 3 end)
  /\
  textFit_calls
    (trace (flush src tf (world (first_connect src (new_host w))))) =
    textFit_calls (trace w)
    + match src with textfit_div_js => 2 | part_000 => 3 end.
Proof.
  intros Htf Hd Hm Hq. rewrite (first_connect_queue src w Hm), Hq.
  cbn [microtasks app]. split; [reflexivity|].
  unfold flush. cbn [props shadow microtasks trace].
  rewrite (run_callbacks_all_fit src tf _ Htf).
  - cbn [trace]. now rewrite repeat_length.
  - rewrite skipped_fittable. cbn [props shadow with_isAttached isAttached].
    assert (Hf : fittable (match textFitted (shadow w) with
                           | Some _ =>
                               write_innerHTML TextFittedSpan
                                 (text (props w)) (shadow w)
                           | None => shadow w
                           end) = true)
      by (destruct (textFitted (shadow w)); exact Hd).
    now rewrite Hf.
Qed.

Lemma startup_fits_hey :
  microtasks (world (first_connect part_000 hey_host))
    = [DoFitMe; DoFitMe; DoFitMe] /\
  textFit_calls
    (trace (flush part_000 textFit_wrapping
              (world (first_connect part_000 hey_host)))) = 0 + 3.
Proof.
  apply (startup_fits part_000 textFit_wrapping
           (initial textfit_div_js hey_document)).
  - intros o d Hd. exact Hd.
  - reflexivity.
  - reflexivity.
  - reflexivity.
Defined.

(** X10.  When the text becomes [undefined] while a fitted span exists, the
    span's markup becomes the literal "undefined", and a refit is
    scheduled. *)
Theorem textChanged_undefined (src : Source) (w : World) (s : string)
    (span : Element) :
  manualFire (props w) = false ->
  textFitted (shadow w) = Some span ->
  textFitted (shadow (exec (textChanged src JsUndefined (JsString s)) w))
    = Some (mkElement "undefined" (clientHeight span) (clientWidth span)) /\
  microtasks (exec (textChanged src JsUndefined (JsString s)) w)
    = microtasks w ++ [DoFitMe].
Proof.
  intros Hm Hspan. unfold exec. rewrite textChanged_run, Hm. cbn.
  rewrite Hspan. cbn. rewrite ?Hspan. now split.
Qed.

Lemma textChanged_undefined_hey :
  textFitted (shadow (exec (textChanged textfit_div_js JsUndefined
                              (JsString "Hey!")) hey_fitted))
    = Some (mkElement "undefined" 40 120) /\
  microtasks (exec (textChanged textfit_div_js JsUndefined
                      (JsString "Hey!")) hey_fitted)
    = microtasks hey_fitted ++ [DoFitMe].
Proof.
  exact (textChanged_undefined textfit_div_js hey_fitted "Hey!"
           (mkElement "Hey!" 40 120) eq_refl eq_refl).
Defined.

(** X11.  [_textChanged] never touches the element's properties, the trace
    or the container itself; without a fitted span it leaves the whole
    document alone. *)
Theorem textChanged_frame (src : Source) (w : World)
    (newText oldText : JsText) :
  props (exec (textChanged src newText oldText) w) = props w /\
  trace (exec (textChanged src newText oldText) w) = trace w /\
  fitMe (shadow (exec (textChanged src newText oldText) w))
    = fitMe (shadow w) /\
  (textFitted (shadow w) = None ->
   shadow (exec (textChanged src newText oldText) w) = shadow w).
Proof.
  unfold exec. rewrite textChanged_run. cbn [snd].
  destruct (strict_neq newText oldText && negb (manualFire (props w)));
    cbn [props trace shadow]; repeat split;
    try (intros ->; reflexivity).
  now destruct (textFitted (shadow w)).
Qed.

Lemma textChanged_frame_hey :
  shadow (exec (textChanged textfit_div_js (JsString "Ho!") (JsString "Hey!"))
            hey_attached) = shadow hey_attached.
Proof.
  destruct (textChanged_frame textfit_div_js hey_attached (JsString "Ho!")
              (JsString "Hey!")) as (_ & _ & _ & Hdoc).
  exact (Hdoc eq_refl).
Defined.

(** ** How the operations compose *)

Lemma resizes_detached (src : Source) (tf : TextFit) (n : nat) :
  forall w,
    run src tf (repeat IronResize n) w =
    mkWorld (props w) (shadow w)
      (microtasks w ++
       if manualFire (props w) then [] else repeat DoFitMe n)
      (trace w).
Proof.
  induction n as [|n IH]; intros w.
  - cbn. destruct (manualFire (props w)); now rewrite app_nil_r, world_eta.
  - cbn [repeat]. rewrite run_cons, IH. cbn [step]. unfold exec.
    rewrite ironResize_run. cbn [snd props shadow microtasks trace].
    destruct (manualFire (props w)); [now rewrite !app_nil_r|].
    now rewrite <- app_assoc.
Qed.

(** X12.  Resize notifications that reach a detached element are absorbed:
    they are scheduled all the same, and the checkpoint then runs them to no
    effect.  With an idle queue before, the world afterwards is the world
    before. *)
Theorem resize_while_detached (src : Source) (tf : TextFit) (w : World)
    (n : nat) :
  isAttached (props w) = false ->
  microtasks w = [] ->
  run src tf (repeat IronResize n ++ [Microtasks]) w = w.
Proof.
  intros Hd Hq.
  unfold run. rewrite fold_left_app. fold (run src tf (repeat IronResize n) w).
  rewrite resizes_detached. cbn [fold_left step]. unfold flush.
  cbn [props shadow microtasks trace].
  rewrite run_callbacks_detached by exact Hd.
  rewrite <- Hq at 1. apply world_eta.
Qed.

Lemma resize_while_detached_hey :
  run textfit_div_js textFit_wrapping
    (repeat IronResize 3 ++ [Microtasks])
    (initial textfit_div_js hey_document)
  = initial textfit_div_js hey_document.
Proof.
  exact (resize_while_detached textfit_div_js textFit_wrapping
           (initial textfit_div_js hey_document) 3 eq_refl eq_refl).
Defined.

(** X15.  A checkpoint empties the queue, and [doFitMe] schedules nothing,
    so a second checkpoint right behind the first finds nothing to run and
    leaves the world as it is. *)
Theorem checkpoint_twice (src : Source) (tf : TextFit) (w : World) :
  microtasks (flush src tf w) = [] /\
  flush src tf (flush src tf w) = flush src tf w.
Proof.
  split; [apply flush_queue_empty|].
  apply flush_idle, flush_queue_empty.
Qed.

(** ** Listener registration *)

Lemma call_run (f : FunObj) (w : World) :
  exec (call f) w =
  mkWorld (props w) (shadow w)
    (microtasks w ++ if manualFire (props w) then [] else [DoFitMe])
    (trace w).
Proof.
  destruct f as [[]|[] i].
  - exact (f_equal snd (ironResize_run textfit_div_js w)).
  - exact (f_equal snd (ironResize_run part_000 w)).
  - exact (f_equal snd (ironResize_run textfit_div_js w)).
  - exact (f_equal snd (ironResize_run part_000 w)).
Qed.

Lemma dispatch_run (type : string) (ls : list Listener) :
  forall h,
    fold_left
      (fun h l =>
         if String.eqb (ltype l) type then lift (call (lcallback l)) h
         else h) ls h =
    mkHost
      (mkWorld (props (world h)) (shadow (world h))
         (microtasks (world h) ++
          if manualFire (props (world h)) then []
          else repeat DoFitMe
                 (length (filter (fun l => String.eqb (ltype l) type) ls)))
         (trace (world h)))
      (listeners h) (allocated h).
Proof.
  induction ls as [|l ls IH]; intros h.
  - cbn. destruct (manualFire (props (world h)));
      rewrite app_nil_r, world_eta; now destruct h.
  - cbn [fold_left filter]. rewrite IH.
    destruct (String.eqb (ltype l) type); [|reflexivity].
    unfold lift. cbn [world listeners allocated]. rewrite call_run.
    cbn [props shadow microtasks trace length repeat].
    destruct (manualFire (props (world h))); [now rewrite !app_nil_r|].
    now rewrite <- app_assoc.
Qed.

(** The hook of [attached] and the delivery of an event agree: firing
    ['iron-resize'] at the element's listeners is what [super.attached()]
    does to the world of an attached element. *)
Lemma dispatch_is_fire (src : Source) (h : Host) :
  world (dispatchEvent "iron-resize" h)
  = exec (fire "iron-resize" (ironResize src) (listeners h)) (world h).
Proof.
  unfold dispatchEvent, exec. now rewrite dispatch_run, fire_run.
Qed.

Lemma funobj_eqb_refl (f : FunObj) : funobj_eqb f f = true.
Proof. destruct f as [[]|[] i]; cbn; now rewrite ?Nat.eqb_refl. Qed.

Lemma fresh_not_listening (type : string) (m : Method) (ls : list Listener)
    (n : nat) :
  forallb
    (fun l =>
       match lcallback l with
       | Bound _ i => (i <? n)%nat
       | Unbound _ => true
       end) ls = true ->
  existsb (same_listener type (Bound m n)) ls = false.
Proof.
  induction ls as [|l ls IH]; intros H; [reflexivity|].
  cbn [forallb existsb] in *. apply andb_prop in H as [Hl Hls].
  rewrite (IH Hls), orb_false_r. unfold same_listener.
  destruct (lcallback l) as [m'|m' i]; cbn [funobj_eqb];
    [now rewrite andb_false_r|].
  apply Nat.ltb_lt in Hl.
  destruct (Nat.eqb_spec i n); [lia|]. now rewrite !andb_false_r.
Qed.

Lemma fresh_weaken (ls : list Listener) (n : nat) :
  forallb
    (fun l =>
       match lcallback l with
       | Bound _ i => (i <? n)%nat
       | Unbound _ => true
       end) ls = true ->
  forallb
    (fun l =>
       match lcallback l with
       | Bound _ i => (i <? S n)%nat
       | Unbound _ => true
       end) ls = true.
Proof.
  induction ls as [|l ls IH]; intros H; [reflexivity|].
  cbn [forallb] in *. apply andb_prop in H as [Hl Hls].
  rewrite (IH Hls), andb_true_r.
  destruct (lcallback l); [reflexivity|].
  apply Nat.ltb_lt in Hl. apply Nat.ltb_lt. lia.
Qed.

Lemma connectedCallback_listeners (sup : Js unit) (h : Host) :
  fresh h = true ->
  connectedCallback sup h =
  mkHost (exec sup (world h))
    (listeners h ++ [mkListener "iron-resize"
                       (Bound M_onIronResize (allocated h))])
    (S (allocated h)).
Proof.
  unfold fresh. intros Hf.
  unfold connectedCallback, bind_this, addEventListener, lift.
  cbn [world listeners allocated].
  now rewrite (fresh_not_listening "iron-resize" M_onIronResize
                 (listeners h) (allocated h) Hf).
Qed.

(** X16.  Each run of [connectedCallback] of [src/textfit-div.js] adds one
    more ['iron-resize'] listener: the function it registers is a new bound
    copy of [onIronResize], equal to none already on the list, so the
    listener list never stays the same. *)
Theorem connectedCallback_adds_listener (sup : Js unit) (h : Host) :
  fresh h = true ->
  listeners (connectedCallback sup h) =
    listeners h ++
    [mkListener "iron-resize" (Bound M_onIronResize (allocated h))] /\
  resize_listeners (connectedCallback sup h) = S (resize_listeners h) /\
  fresh (connectedCallback sup h) = true.
Proof.
  intros Hf. rewrite (connectedCallback_listeners sup h Hf).
  unfold resize_listeners, fresh in *. cbn [listeners allocated].
  repeat split.
  - rewrite filter_app, length_app. cbn. lia.
  - rewrite forallb_app, (fresh_weaken _ _ Hf). cbn.
    now rewrite Nat.leb_refl.
Qed.

Lemma connectedCallback_adds_listener_hey :
  listeners (connectedCallback
               (legacy_connected textfit_div_js
                  (listeners (first_connect textfit_div_js hey_host)))
               (first_connect textfit_div_js hey_host)) =
    listeners (first_connect textfit_div_js hey_host) ++
    [mkListener "iron-resize" (Bound M_onIronResize 1)] /\
  resize_listeners (connectedCallback
                      (legacy_connected textfit_div_js
                         (listeners (first_connect textfit_div_js hey_host)))
                      (first_connect textfit_div_js hey_host))
    = 2 /\
  fresh (connectedCallback
           (legacy_connected textfit_div_js
              (listeners (first_connect textfit_div_js hey_host)))
           (first_connect textfit_div_js hey_host)) = true.
Proof.
  exact (connectedCallback_adds_listener
           (legacy_connected textfit_div_js
              (listeners (first_connect textfit_div_js hey_host)))
           (first_connect textfit_div_js hey_host) eq_refl).
Defined.

Lemma reconnect_invariant (sup : Js unit) (w : World) (n : nat) :
  fresh (Nat.iter n (connectedCallback sup) (new_host w)) = true /\
  resize_listeners (Nat.iter n (connectedCallback sup) (new_host w)) = n.
Proof.
  induction n as [|n [Hf Hn]]; [now split|].
  rewrite !Nat.iter_succ, (connectedCallback_listeners sup _ Hf).
  unfold resize_listeners, fresh in *. cbn [listeners allocated]. split.
  - rewrite forallb_app, (fresh_weaken _ _ Hf). cbn.
    now rewrite Nat.leb_refl.
  - rewrite filter_app, length_app, Hn. cbn. lia.
Qed.

(** X17.  In [src/textfit-div.js] the listeners pile up: an element that
    went through [connectedCallback] [n] times answers a single
    ['iron-resize'] event by scheduling [n] refits (none in manual mode),
    and touches nothing else. *)
Theorem reconnecting_multiplies_refits (sup : Js unit) (w : World) (n : nat) :
  let h := Nat.iter n (connectedCallback sup) (new_host w) in
  resize_listeners h = n /\
  world (dispatchEvent "iron-resize" h) =
  mkWorld (props (world h)) (shadow (world h))
    (microtasks (world h) ++
     if manualFire (props (world h)) then [] else repeat DoFitMe n)
    (trace (world h)).
Proof.
  cbn zeta. destruct (reconnect_invariant sup w n) as [_ Hn].
  split; [exact Hn|].
  unfold dispatchEvent. rewrite dispatch_run. cbn [world].
  fold (resize_listeners (Nat.iter n (connectedCallback sup) (new_host w))).
  now rewrite Hn.
Qed.

Lemma addEventListener_listening (type : string) (f : FunObj) (h : Host) :
  existsb (same_listener type f) (listeners (addEventListener type f h))
  = true.
Proof.
  unfold addEventListener.
  destruct (existsb (same_listener type f) (listeners h)) eqn:He;
    [exact He|].
  cbn [listeners]. rewrite existsb_app. cbn. unfold same_listener at 2.
  cbn. now rewrite String.eqb_refl, funobj_eqb_refl, orb_true_r.
Qed.

(** X18.  [ready] of [src/unnamed/part_000] registers the method itself,
    which is the same function every time: running [ready] again adds no
    listener, and after any number of runs on a new element a single
    ['iron-resize'] event schedules exactly one refit (none in manual
    mode). *)
Theorem ready_registers_once (sup : Js unit) :
  (forall h : Host,
     listeners (ready sup (ready sup h)) = listeners (ready sup h)) /\
  (forall (w : World) (n : nat),
     let h := Nat.iter (S n) (ready sup) (new_host w) in
     listeners h = [mkListener "iron-resize" (Unbound M__onIronResize)] /\
     world (dispatchEvent "iron-resize" h) =
     mkWorld (props (world h)) (shadow (world h))
       (microtasks (world h) ++
        if manualFire (props (world h)) then [] else [DoFitMe])
       (trace (world h))).
Proof.
  assert (Hagain : forall h : Host,
             listeners (ready sup (ready sup h)) = listeners (ready sup h)).
  { intros h. unfold ready at 1.
    pose proof (addEventListener_listening "iron-resize"
                  (Unbound M__onIronResize) (lift sup h)) as He.
    fold (ready sup h) in He.
    unfold addEventListener, lift. cbn [listeners world allocated].
    now rewrite He. }
  split; [exact Hagain|].
  intros w n. cbn zeta.
  assert (Hl : listeners (Nat.iter (S n) (ready sup) (new_host w))
               = [mkListener "iron-resize" (Unbound M__onIronResize)]).
  { induction n as [|n IH]; [reflexivity|].
    change (Nat.iter (S (S n)) (ready sup) (new_host w))
      with (ready sup (Nat.iter (S n) (ready sup) (new_host w))).
    change (Nat.iter (S n) (ready sup) (new_host w))
      with (ready sup (Nat.iter n (ready sup) (new_host w))) in *.
    now rewrite Hagain. }
  split; [exact Hl|].
  unfold dispatchEvent. rewrite dispatch_run, Hl. reflexivity.
Qed.

(** ** Connections after the first *)

Lemma reconnect_world (src : Source) (h : Host) :
  world (reconnect src h) =
  mkWorld (with_isAttached true (props (world h))) (shadow (world h))
    (microtasks (world h) ++
     if manualFire (props (world h)) then []
     else repeat DoFitMe (resize_listeners h) ++ [DoFitMe])
    (trace (world h)).
Proof.
  destruct src; unfold reconnect.
  - rewrite connectedCallback_world. unfold exec.
    now rewrite legacy_connected_run.
  - unfold lift, exec. cbn [world]. now rewrite legacy_connected_run.
Qed.

(** X13.  A connection after the first schedules one fit for [attached]
    itself and, before it, one for every ['iron-resize'] listener registered
    so far (none at all in manual mode), and touches neither the document
    nor the trace.  In [src/textfit-div.js] it also leaves one listener
    more, in [src/unnamed/part_000] the same listeners.  Removing the
    element takes nothing off the queue and removes no listener. *)
Theorem reconnect_schedules (src : Source) (h : Host) :
  fresh h = true ->
  world (reconnect src h) =
    mkWorld (with_isAttached true (props (world h))) (shadow (world h))
      (microtasks (world h) ++
       if manualFire (props (world h)) then []
       else repeat DoFitMe (resize_listeners h) ++ [DoFitMe])
      (trace (world h)) /\
  resize_listeners (reconnect src h) =
    match src with
    | textfit_div_js => S (resize_listeners h)
    | part_000 => resize_listeners h
    end /\
  microtasks (world (disconnect src h)) = microtasks (world h) /\
  listeners (disconnect src h) = listeners h.
Proof.
  intros Hf. split; [apply reconnect_world|]. split; [|split].
  - destruct src; unfold reconnect; [|reflexivity].
    rewrite (connectedCallback_listeners _ h Hf).
    unfold resize_listeners. cbn [listeners].
    rewrite filter_app, length_app. cbn. lia.
  - unfold disconnect, lift, exec. cbn [world].
    now rewrite legacy_disconnected_run.
  - reflexivity.
Qed.

(** On the "Hey!" element of [src/textfit-div.js] after its first
    connection: the second connection schedules two more callbacks and
    leaves two listeners. *)
Lemma reconnect_schedules_hey :
  microtasks (world (reconnect textfit_div_js
                       (first_connect textfit_div_js hey_host)))
    = [DoFitMe; DoFitMe] ++ [DoFitMe; DoFitMe] /\
  resize_listeners (reconnect textfit_div_js
                      (first_connect textfit_div_js hey_host)) = 2.
Proof.
  destruct (reconnect_schedules textfit_div_js
              (first_connect textfit_div_js hey_host) eq_refl)
    as (Hw & Hl & _).
  split.
  - rewrite Hw. reflexivity.
  - rewrite Hl. reflexivity.
Defined.

(** X14.  Removing an attached element from the document and connecting it
    again restores its properties, document and trace exactly; outside
    manual mode the queue has grown by one callback for each
    ['iron-resize'] listener and one for [attached] itself. *)
Theorem disconnect_reconnect_round_trip (src : Source) (h : Host) :
  isAttached (props (world h)) = true ->
  world (reconnect src (disconnect src h)) =
  mkWorld (props (world h)) (shadow (world h))
    (microtasks (world h) ++
     if manualFire (props (world h)) then []
     else repeat DoFitMe (resize_listeners h) ++ [DoFitMe])
    (trace (world h)).
Proof.
  intros Ha. rewrite reconnect_world.
  unfold disconnect, lift, exec, resize_listeners.
  cbn [world listeners]. rewrite legacy_disconnected_run.
  cbn [snd props shadow microtasks trace manualFire with_isAttached].
  f_equal. destruct (props (world h)). cbn in *. now subst.
Qed.

Lemma disconnect_reconnect_round_trip_hey :
  world (reconnect textfit_div_js
           (disconnect textfit_div_js
              (first_connect textfit_div_js hey_host))) =
  mkWorld (props (world (first_connect textfit_div_js hey_host)))
    hey_document
    ([DoFitMe; DoFitMe] ++ [DoFitMe; DoFitMe]) [].
Proof.
  exact (disconnect_reconnect_round_trip textfit_div_js
           (first_connect textfit_div_js hey_host) eq_refl).
Defined.

(** ** Events, listeners and the checkpoint *)





(** ** The two files *)

(** C10 fails as stated.  Connected for the first time from the same state,
    the element of [src/textfit-div.js] has two callbacks waiting and fits
    twice at the checkpoint, the element of [src/unnamed/part_000] has three
    waiting and fits three times; connected once more, the first carries
    two resize listeners and the second one. *)
Lemma sources_diverge_on_connect :
  microtasks (world (first_connect textfit_div_js hey_host))
    = [DoFitMe; DoFitMe] /\
  microtasks (world (first_connect part_000 hey_host))
    = [DoFitMe; DoFitMe; DoFitMe] /\
  textFit_calls
    (trace (flush textfit_div_js textFit_wrapping
              (world (first_connect textfit_div_js hey_host)))) = 2 /\
  textFit_calls
    (trace (flush part_000 textFit_wrapping
              (world (first_connect part_000 hey_host)))) = 3 /\
  resize_listeners
    (reconnect textfit_div_js (first_connect textfit_div_js hey_host)) = 2 /\
  resize_listeners
    (reconnect part_000 (first_connect part_000 hey_host)) = 1 /\
  ~ same_start.
Proof.
  repeat split.
  intros H. specialize (H hey_host).
  apply (f_equal (fun w => length (microtasks w))) in H.
  vm_compute in H. discriminate.
Qed.

(** C10, as the sources have it.  The two files declare the same twelve
    properties, with the same types, defaults and observer, and their
    [attached], [detached], [_textChanged], resize handler and [doFitMe]
    are the same operations.  The elements differ in where the resize
    listener is registered, and it shows: [src/unnamed/part_000] registers
    the method itself in [ready], before the first [attached], so start-up
    leaves three callbacks waiting, and a later connection adds no
    listener; [src/textfit-div.js] registers a new bound copy at the end of
    every [connectedCallback], so start-up leaves two callbacks waiting,
    and every later connection adds a listener. *)
Theorem sources_agree_on_methods :
  Part000.properties = TextfitDiv.properties /\
  map pname TextfitDiv.properties =
    ["text"; "isAttached"; "horizontalCenter"; "verticalCenter"; "multiLine";
     "detectMultiLine"; "minFontSize"; "maxFontSize"; "reProcess";
     "widthOnly"; "manualFire"; "alignVertWithFlexbox"] /\
  (forall ls : list Listener, Part000.attached ls = TextfitDiv.attached ls) /\
  Part000.detached = TextfitDiv.detached /\
  (forall newText oldText : JsText,
     Part000._textChanged newText oldText
     = TextfitDiv._textChanged newText oldText) /\
  Part000._onIronResize = TextfitDiv.onIronResize /\
  (forall tf : TextFit, Part000.doFitMe tf = TextfitDiv.doFitMe tf) /\
  (forall w : World,
     listeners (first_connect textfit_div_js (new_host w))
       = [mkListener "iron-resize" (Bound M_onIronResize 0)] /\
     listeners (first_connect part_000 (new_host w))
       = [mkListener "iron-resize" (Unbound M__onIronResize)]) /\
  (forall w : World,
     manualFire (props w) = false ->
     microtasks (world (first_connect textfit_div_js (new_host w)))
       = microtasks w ++ [DoFitMe; DoFitMe] /\
     microtasks (world (first_connect part_000 (new_host w)))
       = microtasks w ++ [DoFitMe; DoFitMe; DoFitMe]) /\
  (forall h : Host,
     fresh h = true ->
     resize_listeners (reconnect textfit_div_js h) = S (resize_listeners h) /\
     listeners (reconnect part_000 h) = listeners h).
Proof.
  repeat split.
  - now rewrite (first_connect_queue textfit_div_js w H).
  - now rewrite (first_connect_queue part_000 w H).
  - unfold reconnect. rewrite (connectedCallback_listeners _ h H).
    unfold resize_listeners. cbn [listeners].
    rewrite filter_app, length_app. cbn. lia.
Qed.

(** On the "Hey!" element. *)
Lemma sources_agree_on_methods_hey :
  microtasks (world (first_connect textfit_div_js hey_host))
    = [] ++ [DoFitMe; DoFitMe] /\
  microtasks (world (first_connect part_000 hey_host))
    = [] ++ [DoFitMe; DoFitMe; DoFitMe] /\
  resize_listeners
    (reconnect textfit_div_js (first_connect textfit_div_js hey_host))
    = S (resize_listeners (first_connect textfit_div_js hey_host)).
Proof.
  destruct sources_agree_on_methods
    as (_ & _ & _ & _ & _ & _ & _ & _ & Hstart & Hre).
  destruct (Hstart (initial textfit_div_js hey_document) eq_refl)
    as (Hjs & Hp).
  destruct (Hre (first_connect textfit_div_js hey_host) eq_refl) as (Hl & _).
  split; [exact Hjs|]. split; [exact Hp | exact Hl].
Defined.
